(** * install_ghidra.py: a shallow embedding and its verified properties

    The installer is a linear script: it creates an application bundle,
    downloads and verifies a JDK and a Ghidra release, unpacks both into the
    bundle, tries to build the native binaries and marks the launchers
    executable.  Below, the functions of [install_ghidra.py] are embedded as
    computations over an explicit world (a file-system tree and a log of the
    externally visible actions) that may return, raise a Python exception or
    leave the interpreter through [exit()].

    What the script cannot control is an explicit environment: the bytes a
    URL serves, what a child process does and returns, and the decoding of
    the two archive formats.  Left out are the colours and the progress bar
    of the output, file modes and owners, symbolic links, transfers that
    break off half-way and failures of the disk. *)

From Stdlib Require Import ZArith Lia Ascii String.
From stdpp Require Import base option list strings.

Local Open Scope Z_scope.

(** ** Bytes *)

Abbreviation bytes := (list Byte.byte).

Definition b2z (b : Byte.byte) : Z := Z.of_N (Byte.to_N b).

Definition bytes_of (s : string) : bytes := String.list_byte_of_string s.

(** ** hashlib.sha256

    [hashlib] is Python's library, not part of the repository; the digest it
    computes is FIPS 180-4 SHA-256, written out here on 32-bit words held in
    [Z] so that digests of concrete files can be evaluated. *)
Module Sha256.

Definition mask32 : Z := 0xffffffff.
Definition w32 (x : Z) : Z := Z.land x mask32.
Definition add32 (x y : Z) : Z := w32 (x + y).
Definition rotr (n x : Z) : Z :=
  Z.lor (Z.shiftr x n) (w32 (Z.shiftl x (32 - n))).
Definition not32 (x : Z) : Z := Z.lxor x mask32.

Definition Ch (x y z : Z) : Z := Z.lxor (Z.land x y) (Z.land (not32 x) z).
Definition Maj (x y z : Z) : Z :=
  Z.lxor (Z.lxor (Z.land x y) (Z.land x z)) (Z.land y z).
Definition Sigma0 (x : Z) : Z :=
  Z.lxor (Z.lxor (rotr 2 x) (rotr 13 x)) (rotr 22 x).
Definition Sigma1 (x : Z) : Z :=
  Z.lxor (Z.lxor (rotr 6 x) (rotr 11 x)) (rotr 25 x).
Definition sigma0 (x : Z) : Z :=
  Z.lxor (Z.lxor (rotr 7 x) (rotr 18 x)) (Z.shiftr x 3).
Definition sigma1 (x : Z) : Z :=
  Z.lxor (Z.lxor (rotr 17 x) (rotr 19 x)) (Z.shiftr x 10).

(** The first 64 primes. *)
Definition is_prime (n : Z) : bool :=
  forallb (fun d => negb (n mod d =? 0)) (seqZ 2 (n - 2)).
Definition primes : list Z := take 64 (filter (fun n => is_prime n = true) (seqZ 2 400)).

(** The largest [r] with [lo <= r < hi] and [r^3 <= n], by bisection. *)
Fixpoint cube_root_between (fuel : nat) (lo hi n : Z) : Z :=
  match fuel with
  | O => lo
  | S fuel' =>
      if hi - lo <=? 1 then lo
      else
        let mid := (lo + hi) / 2 in
        if mid * mid * mid <=? n then cube_root_between fuel' mid hi n
        else cube_root_between fuel' lo mid n
  end.

(** The round constants: the first 32 bits of the fractional parts of the
    cube roots of the first 64 primes. *)
Definition K : list Z :=
  Eval vm_compute in
    (fun p => w32 (cube_root_between 64 0 (2 ^ 40) (p * 2 ^ 96))) <$> primes.

(** The initial hash value: the first 32 bits of the fractional parts of the
    square roots of the first 8 primes. *)
Definition H0 : list Z :=
  Eval vm_compute in (fun p => w32 (Z.sqrt (p * 2 ^ 64))) <$> take 8 primes.

(** Big-endian encoding of [x] on [n] bytes, as numbers below 256. *)
Fixpoint be_bytes (n : nat) (x : Z) : list Z :=
  match n with
  | O => []
  | S n' => Z.land (Z.shiftr x (8 * Z.of_nat n')) 0xff :: be_bytes n' x
  end.

(** The message followed by 0x80, zeros up to 56 modulo 64, and the bit
    length on eight bytes. *)
Definition pad (msg : list Z) : list Z :=
  let len := Z.of_nat (length msg) in
  let zeros := Z.to_nat ((55 - len) mod 64) in
  msg ++ 0x80 :: replicate zeros 0 ++ be_bytes 8 (8 * len).

Fixpoint words (fuel : nat) (bs : list Z) : list Z :=
  match fuel, bs with
  | S f, a :: b :: c :: d :: rest =>
      (Z.shiftl a 24 + Z.shiftl b 16 + Z.shiftl c 8 + d) :: words f rest
  | _, _ => []
  end.

(** The message schedule, newest word first: [rev_w] holds W[t-1], W[t-2],
    ... and is extended by [n] further words. *)
Fixpoint schedule (n : nat) (rev_w : list Z) : list Z :=
  match n with
  | O => rev_w
  | S n' =>
      let w i := nth i rev_w 0 in
      let next :=
        add32 (add32 (sigma1 (w 1%nat)) (w 6%nat))
              (add32 (sigma0 (w 14%nat)) (w 15%nat)) in
      schedule n' (next :: rev_w)
  end.

Record regs := Regs { ra : Z; rb : Z; rc : Z; rd : Z;
                      re : Z; rf : Z; rg : Z; rh : Z }.

Definition round (s : regs) (kw : Z * Z) : regs :=
  let t1 := add32 (add32 (add32 (rh s) (Sigma1 (re s)))
                         (add32 (Ch (re s) (rf s) (rg s)) (fst kw)))
                  (snd kw) in
  let t2 := add32 (Sigma0 (ra s)) (Maj (ra s) (rb s) (rc s)) in
  Regs (add32 t1 t2) (ra s) (rb s) (rc s) (add32 (rd s) t1) (re s) (rf s) (rg s).

Definition regs_of (h : list Z) : regs :=
  let g i := nth i h 0 in
  Regs (g 0%nat) (g 1%nat) (g 2%nat) (g 3%nat)
       (g 4%nat) (g 5%nat) (g 6%nat) (g 7%nat).

Definition regs_to (s : regs) : list Z :=
  [ra s; rb s; rc s; rd s; re s; rf s; rg s; rh s].

Definition compress (h : list Z) (block : list Z) : list Z :=
  let w := rev (schedule 48 (rev block)) in
  let s := foldl round (regs_of h) (zip K w) in
  zip_with add32 h (regs_to s).

Fixpoint blocks (fuel : nat) (ws : list Z) (h : list Z) : list Z :=
  match fuel, ws with
  | S f, _ :: _ => blocks f (drop 16 ws) (compress h (take 16 ws))
  | _, _ => h
  end.

Definition digest (msg : bytes) : list Z :=
  let p := pad (b2z <$> msg) in
  let ws := words (length p) p in
  mjoin (be_bytes 4 <$> blocks (length ws) ws H0).

Definition hex_digit (x : Z) : Ascii.ascii :=
  if x <? 10 then Ascii.ascii_of_N (Z.to_N (48 + x))
  else Ascii.ascii_of_N (Z.to_N (87 + x)).

Fixpoint hex (bs : list Z) : string :=
  match bs with
  | [] => EmptyString
  | b :: rest =>
      String (hex_digit (Z.shiftr b 4)) (String (hex_digit (Z.land b 15)) (hex rest))
  end.

(** [hashlib.sha256(msg).hexdigest()] *)
Definition hexdigest (msg : bytes) : string := hex (digest msg).

End Sha256.

(** ** Paths

    A path is the list of the components of an absolute, normalised POSIX
    path: [["tmp"; "x"]] is [/tmp/x] and [[]] is the root.  [os.path.join] of
    a path and relative names is list concatenation. *)

Abbreviation path := (list string).

Definition path_str (p : path) : string :=
  String.concat "" ((fun c => String.append "/" c) <$> p).

(** [s.split("/")] *)
Fixpoint split_slash (s : string) : list string :=
  match s with
  | EmptyString => [EmptyString]
  | String c rest =>
      let parts := split_slash rest in
      if Ascii.eqb c "/"%char then EmptyString :: parts
      else match parts with
           | p :: ps => String c p :: ps
           | [] => [String c EmptyString]
           end
  end.

(** [s.lstrip("/")] *)
Fixpoint lstrip_slash (s : string) : string :=
  match s with
  | String c rest => if Ascii.eqb c "/"%char then lstrip_slash rest else s
  | EmptyString => EmptyString
  end.

(** [s.endswith("/")] *)
Fixpoint ends_with_slash (s : string) : bool :=
  match s with
  | EmptyString => false
  | String c EmptyString => Ascii.eqb c "/"%char
  | String _ rest => ends_with_slash rest
  end.

(** One step of [os.path.normpath]: empty and [.] components are dropped,
    [..] removes the last component (and stays at the root). *)
Definition walk (stack : path) (comp : string) : path :=
  if String.eqb comp "" then stack
  else if String.eqb comp "." then stack
  else if String.eqb comp ".." then removelast stack
  else stack ++ [comp].

(** [os.path.realpath(os.path.join(base, rel))] for a relative [rel], on a
    file system without symbolic links. *)
Definition resolve (base : path) (rel : string) : path :=
  foldl walk base (split_slash rel).

(** [os.path.dirname] *)
Definition dirname (p : path) : path := removelast p.

(** [os.path.commonpath([target, dest]) == dest] *)
Definition within (dest target : path) : bool :=
  bool_decide (dest `prefix_of` target).

(** ** The file system

    A tree of regular files and directories.  A directory keeps its entries
    in the order in which the operating system lists them. *)

#[warnings="-register-all"]
Inductive node :=
| File (data : bytes)
| Dir (entries : list (string * node)).

Section Assoc.
Context {V : Type}.

Fixpoint assoc (k : string) (es : list (string * V)) : option V :=
  match es with
  | [] => None
  | (k', v) :: rest => if String.eqb k k' then Some v else assoc k rest
  end.

(** [d[k] = v] on an insertion-ordered dictionary. *)
Fixpoint assoc_set (k : string) (v : V) (es : list (string * V)) : list (string * V) :=
  match es with
  | [] => [(k, v)]
  | (k', v') :: rest =>
      if String.eqb k k' then (k, v) :: rest else (k', v') :: assoc_set k v rest
  end.

(** [del d[k]] *)
Fixpoint assoc_del (k : string) (es : list (string * V)) : list (string * V) :=
  match es with
  | [] => []
  | (k', v') :: rest =>
      if String.eqb k k' then assoc_del k rest else (k', v') :: assoc_del k rest
  end.
End Assoc.

Fixpoint lookup_node (p : path) (n : node) : option node :=
  match p with
  | [] => Some n
  | c :: p' =>
      match n with
      | Dir es => match assoc c es with
                  | Some m => lookup_node p' m
                  | None => None
                  end
      | File _ => None
      end
  end.

(** Replace or create the node at [p]; the parent of [p] has to be an
    existing directory. *)
Fixpoint put_node (p : path) (new : node) (n : node) : option node :=
  match p with
  | [] => Some new
  | c :: p' =>
      match n with
      | Dir es =>
          match p' with
          | [] => Some (Dir (assoc_set c new es))
          | _ :: _ =>
              match assoc c es with
              | Some m => m' ← put_node p' new m; Some (Dir (assoc_set c m' es))
              | None => None
              end
          end
      | File _ => None
      end
  end.

(** Remove the entry at [p], with everything below it. *)
Fixpoint del_node (p : path) (n : node) : option node :=
  match p with
  | [] => None
  | c :: p' =>
      match n with
      | Dir es =>
          match assoc c es with
          | Some m =>
              match p' with
              | [] => Some (Dir (assoc_del c es))
              | _ :: _ => m' ← del_node p' m; Some (Dir (assoc_set c m' es))
              end
          | None => None
          end
      | File _ => None
      end
  end.

(** Create the directory [p] and its missing ancestors; [None] when a
    component of [p] is a regular file. *)
Fixpoint mkdirs (p : path) (n : node) : option node :=
  match n with
  | File _ => None
  | Dir es =>
      match p with
      | [] => Some n
      | c :: p' =>
          match assoc c es with
          | Some m => m' ← mkdirs p' m; Some (Dir (assoc_set c m' es))
          | None => m' ← mkdirs p' (Dir []); Some (Dir (assoc_set c m' es))
          end
      end
  end.

(** What [os.stat] tells about a path: nothing there, a regular file with
    its content, or a directory. *)
Inductive stat := SFile (data : bytes) | SDir.

Definition stat_of (n : node) : stat :=
  match n with File c => SFile c | Dir _ => SDir end.

Definition os_stat (root : node) (p : path) : option stat :=
  stat_of <$> lookup_node p root.

Definition is_dir (root : node) (p : path) : bool :=
  match lookup_node p root with Some (Dir _) => true | _ => false end.

Definition exists_at (root : node) (p : path) : bool :=
  match lookup_node p root with Some _ => true | None => false end.

Definition file_at (root : node) (p : path) : option bytes :=
  match lookup_node p root with Some (File c) => Some c | _ => None end.

Definition names_at (root : node) (p : path) : option (list string) :=
  match lookup_node p root with Some (Dir es) => Some (es.*1) | _ => None end.

(** ** Exceptions, messages and events *)

(** The exceptions the script can meet; all of them derive from Python's
    [Exception].  [SystemExit], which does not, is a separate outcome of a
    computation (see [result]). *)
Inductive exn :=
| FileNotFoundError (p : path)
| IsADirectoryError (p : path)
| NotADirectoryError (p : path)
| FileExistsError (p : path)
| URLError (url : string)
| OSError (what : string)
| CalledProcessError (argv : list string) (returncode : Z)
| IndexError
| ReadError
| BadZipFile
| OutsideDestinationError (member : string)
| SpecialFileError (member : string)
| ChecksumException (file_name : string).
(* [ChecksumException n] is
   [Exception(f"Downloaded {n} failed checksum verification")]. *)

(** The status lines the script prints, without their colours. *)
Inductive message :=
| ErrorCalculatingChecksum (file_path : path) (e : exn)
| VerifyingChecksum (file_name : string)
| ChecksumPassed (file_name : string)
| ChecksumFailed (file_name : string)
| ChecksumExpected (digest : string)
| ChecksumActual (digest : string)
| ErrorVerifyingChecksum (file_name : string) (e : exn)
| GradleDirectoryNotFound (gradle_dir : path)
| BuildingNativeBinaries
| UsingJdk (jdk_home : path)
| NativeBinariesBuilt
| GradleBuildFailed (returncode : Z)
| GradleStdout (out : string)
| GradleStderr (err : string)
| ErrorBuildingNativeBinaries (e : exn)
| AddedExecutePermissions (file_path : path)
| ErrorAddingExecutePermissions (file_path : path) (e : exn)
| AlreadyExistsSkippingDownload (dest : path)
| ExistingFileFailedRedownloading
| Downloading (url : string) (dest : path)
| ErrorDownloading (url : string) (e : exn)
| Extracting (file_path dest_dir : path)
| ErrorExtracting (file_path : path) (e : exn)
| CreatedGhidraApp (app_dir : path)
| InstallationFailed (e : exn)
| NativeBuildWarning
| InstallationCompleted.

(** What the script does to the outside, in order: lines printed, network
    transfers started, child processes launched. *)
Inductive event :=
| Print (m : message)
| UrlRetrieve (url : string) (dest : path)
| Run (argv : list string) (cwd : option path) (env : option (list (string * string))).

(** ** Archives

    The members of a tar archive, as far as regular files, directories and
    special files (devices and FIFOs) go; link members are not modelled. *)
Inductive tar_type := REGTYPE | DIRTYPE | DEVTYPE.

Record TarInfo := mkTarInfo {
  tar_name : string;
  tar_type_of : tar_type;
  tar_data : bytes
}.

(** A zip member; a name that ends with a slash is a directory. *)
Record ZipInfo := mkZipInfo {
  zip_filename : string;
  zip_data : bytes
}.

(** ** The environment

    Everything the script reaches through a library or the operating system
    and that it does not control: what a URL serves, what a child process
    does, the ambient environment variables and how the archive formats
    decode. *)
Inductive completed :=
| Completed (returncode : Z) (stdout stderr : string) (root' : node)
| LaunchError (e : exn).

Record Env := mkEnv {
  (* the bytes a URL serves; [None] when the transfer fails *)
  urlopen : string -> option bytes;
  (* a child process: command line, working directory, environment
     variables, file system before *)
  spawn : list string -> option path -> option (list (string * string)) ->
          node -> completed;
  (* [os.environ] *)
  environ : list (string * string);
  (* gzip and tar decoding of an archive ([None]: not a valid archive) *)
  untar_gz : bytes -> option (list TarInfo);
  (* zip decoding *)
  unzip : bytes -> option (list ZipInfo)
}.

Record World := mkWorld {
  w_root : node;
  w_log : list event
}.

(** ** Computations *)

Inductive result (A : Type) :=
| Ok (a : A)
| Raise (e : exn)
| Exit (code : option Z).   (* SystemExit(code) *)
Arguments Ok {A} a.
Arguments Raise {A} e.
Arguments Exit {A} code.

Definition M (A : Type) : Type := Env -> World -> result A * World.

Definition ret {A} (a : A) : M A := fun _ w => (Ok a, w).

Definition bind {A B} (m : M A) (k : A -> M B) : M B :=
  fun E w =>
    match m E w with
    | (Ok a, w') => k a E w'
    | (Raise e, w') => (Raise e, w')
    | (Exit c, w') => (Exit c, w')
    end.

Declare Scope py_scope.
Delimit Scope py_scope with py.
Notation "x ← y ; z" := (bind y (fun x => z)) (only parsing) : py_scope.
Notation "y ;; z" := (bind y (fun _ => z)) (only parsing) : py_scope.
Local Open Scope py_scope.

Definition raise {A} (e : exn) : M A := fun _ w => (Raise e, w).

(** [exit(code)] raises [SystemExit], which no [except Exception] catches. *)
Definition exit {A} (code : option Z) : M A := fun _ w => (Exit code, w).

(** The status with which the interpreter ends on [SystemExit(code)]:
    [None] counts as zero. *)
Definition exit_status (code : option Z) : Z := default 0 code.

(** [try: body  except Exception as e: handler e] *)
Definition try_except {A} (body : M A) (handler : exn -> M A) : M A :=
  fun E w =>
    match body E w with
    | (Raise e, w') => handler e E w'
    | r => r
    end.

Definition is_CalledProcessError (e : exn) : bool :=
  match e with CalledProcessError _ _ => true | _ => false end.

(** [try: body  except subprocess.CalledProcessError as e: handler e] *)
Definition try_except_CalledProcessError {A}
    (body : M A) (handler : exn -> M A) : M A :=
  fun E w =>
    match body E w with
    | (Raise e, w') =>
        if is_CalledProcessError e then handler e E w' else (Raise e, w')
    | r => r
    end.

(** The world after the events [evs] have been added to the log. *)
Definition logged (w : World) (evs : list event) : World :=
  mkWorld (w_root w) (w_log w ++ evs).

Definition emit (ev : event) : M unit :=
  fun _ w => (Ok tt, logged w [ev]).

Definition print (m : message) : M unit := emit (Print m).

Definition get_root : M node := fun _ w => (Ok (w_root w), w).
Definition set_root (r : node) : M unit := fun _ w => (Ok tt, mkWorld r (w_log w)).
Definition ask : M Env := fun E w => (Ok E, w).

(** [if b: m] *)
Definition when (b : bool) (m : M unit) : M unit :=
  if b then m else ret tt.

(** Turn the outcome of a file-system update into a result. *)
Definition commit (r : option node) (e : exn) : M unit :=
  match r with Some root' => set_root root' | None => raise e end.

(** ** Operating-system and library calls *)

(** [os.path.exists(p)] *)
Definition os_path_exists (p : path) : M bool :=
  root ← get_root; ret (exists_at root p).

(** [open(p, "rb")] read to the end. *)
Definition read_file (p : path) : M bytes :=
  root ← get_root;
  match lookup_node p root with
  | Some (File c) => ret c
  | Some (Dir _) => raise (IsADirectoryError p)
  | None => raise (FileNotFoundError p)
  end.

(** [open(p, "wb")] followed by writing [c]: the file is created or
    truncated; its directory has to exist. *)
Definition write_file (p : path) (c : bytes) : M unit :=
  root ← get_root;
  match lookup_node p root with
  | Some (Dir _) => raise (IsADirectoryError p)
  | _ => commit (put_node p (File c) root) (FileNotFoundError p)
  end.

(** [os.remove(p)] *)
Definition os_remove (p : path) : M unit :=
  root ← get_root;
  match lookup_node p root with
  | Some (File _) => commit (del_node p root) (FileNotFoundError p)
  | Some (Dir _) => raise (IsADirectoryError p)
  | None => raise (FileNotFoundError p)
  end.

(** [shutil.rmtree(p)] *)
Definition shutil_rmtree (p : path) : M unit :=
  root ← get_root;
  match lookup_node p root with
  | Some (Dir _) => commit (del_node p root) (FileNotFoundError p)
  | Some (File _) => raise (NotADirectoryError p)
  | None => raise (FileNotFoundError p)
  end.

(** [os.makedirs(p, exist_ok=True)] *)
Definition os_makedirs (p : path) : M unit :=
  root ← get_root; commit (mkdirs p root) (FileExistsError p).

(** [os.listdir(p)] *)
Definition os_listdir (p : path) : M (list string) :=
  root ← get_root;
  match lookup_node p root with
  | Some (Dir es) => ret (es.*1)
  | Some (File _) => raise (NotADirectoryError p)
  | None => raise (FileNotFoundError p)
  end.

(** [names[0]] *)
Definition index0 (names : list string) : M string :=
  match names with
  | first :: _ => ret first
  | [] => raise IndexError
  end.

(** [shutil.copytree(src, dst)]: [src] has to be a directory and [dst] must
    not exist; the missing ancestors of [dst] are created. *)
Definition shutil_copytree (src dst : path) : M unit :=
  root ← get_root;
  match lookup_node src root with
  | Some (Dir es) =>
      if exists_at root dst then raise (FileExistsError dst)
      else commit (mkdirs dst root ≫= put_node dst (Dir es))
                  (NotADirectoryError dst)
  | Some (File _) => raise (NotADirectoryError src)
  | None => raise (FileNotFoundError src)
  end.

(** [urllib.request.urlretrieve(url, dest, reporthook)]: the URL is opened
    first, then the destination file is written.  The progress bar that
    [reporthook] feeds has no effect on the outcome and is left out. *)
Definition urlretrieve (url : string) (dest : path) : M unit :=
  emit (UrlRetrieve url dest);;
  E ← ask;
  match urlopen E url with
  | None => raise (URLError url)
  | Some content => write_file dest content
  end.

(** The file a command names when it starts with [./]: it is looked up in
    the working directory, not on the search path. *)
Definition local_executable (argv : list string) (cwd : option path) : option path :=
  match argv, cwd with
  | a0 :: _, Some d => if String.prefix "./" a0 then Some (resolve d a0) else None
  | _, _ => None
  end.

(** Starting a child process: the launch fails when the named local
    executable does not exist; otherwise the environment tells what the
    process does. *)
Definition launch (E : Env) (argv : list string) (cwd : option path)
    (env : option (list (string * string))) (root : node) : completed :=
  match local_executable argv cwd with
  | Some exe =>
      if exists_at root exe then spawn E argv cwd env root
      else LaunchError (FileNotFoundError exe)
  | None => spawn E argv cwd env root
  end.

(** [subprocess.run(argv, cwd=cwd, env=env, capture_output=True, text=True)] *)
Definition subprocess_run (argv : list string) (cwd : option path)
    (env : option (list (string * string))) : M (Z * string * string) :=
  emit (Run argv cwd env);;
  root ← get_root;
  E ← ask;
  match launch E argv cwd env root with
  | Completed rc out err root' => set_root root';; ret (rc, out, err)
  | LaunchError e => raise e
  end.

(** [subprocess.run(argv, check=True)] *)
Definition subprocess_run_check (argv : list string) : M unit :=
  r ← subprocess_run argv None None;
  if (r.1.1 =? 0) then ret tt else raise (CalledProcessError argv r.1.1).

(** *** tarfile with [filter='data'] and zipfile

    Both are Python's libraries.  The [data] filter follows its documented
    behaviour on the members modelled here: leading slashes are stripped
    from the name, a name that resolves outside the destination raises
    [OutsideDestinationError], a special file raises [SpecialFileError].
    With the default [errorlevel] such an error ends [extractall].  A member
    that passes the filter is written at its resolved path; the directories
    above that path are created when they are missing. *)
Definition data_filter (member : TarInfo) (dest_path : path) : exn + path :=
  let name := lstrip_slash (tar_name member) in
  let target_path := resolve dest_path name in
  if negb (within dest_path target_path)
  then inl (OutsideDestinationError (tar_name member))
  else match tar_type_of member with
       | DEVTYPE => inl (SpecialFileError (tar_name member))
       | _ => inr target_path
       end.

Definition tar_extract_member (member : TarInfo) (targetpath : path) : M unit :=
  match tar_type_of member with
  | DIRTYPE => os_makedirs targetpath
  | _ => os_makedirs (dirname targetpath);; write_file targetpath (tar_data member)
  end.

(** [TarFile.extractall(dest, filter='data')] *)
Fixpoint tar_extractall (members : list TarInfo) (dest : path) : M unit :=
  match members with
  | [] => ret tt
  | member :: rest =>
      match data_filter member dest with
      | inl e => raise e
      | inr targetpath =>
          tar_extract_member member targetpath;; tar_extractall rest dest
      end
  end.

(** zipfile keeps a member under the destination by dropping the empty,
    [.] and [..] components of its name. *)
Definition zip_target (dest : path) (filename : string) : path :=
  dest ++ filter (fun x : string => x ∉ [""; "."; ".."]) (split_slash filename).

Definition zip_extract_member (member : ZipInfo) (dest : path) : M unit :=
  let targetpath := zip_target dest (zip_filename member) in
  if ends_with_slash (zip_filename member) then os_makedirs targetpath
  else os_makedirs (dirname targetpath);; write_file targetpath (zip_data member).

(** [ZipFile.extractall(dest)] *)
Fixpoint zip_extractall (members : list ZipInfo) (dest : path) : M unit :=
  match members with
  | [] => ret tt
  | member :: rest => zip_extract_member member dest;; zip_extractall rest dest
  end.

(** *** The hash object of hashlib *)
Definition sha256_new : bytes := [].
Definition sha256_update (h : bytes) (block : bytes) : bytes := h ++ block.
Definition sha256_hexdigest (h : bytes) : string := Sha256.hexdigest h.

Definition block_size : nat := 4096.

(** ** install_ghidra.py *)

(** The module-level variables of the script.  [cwd] is [os.getcwd()] at
    start-up. *)
Record Globals := mkGlobals {
  java_url : string;
  java_expected_sha256 : string;
  ghidra_url : string;
  ghidra_expected_sha256 : string;
  cwd : path
}.

(** The values the script assigns. *)
Definition script_globals (cwd : path) : Globals := {|
  java_url := "https://download.java.net/java/GA/jdk21.0.2/f2283984656d49d69e91c558476027ac/13/GPL/openjdk-21.0.2_macos-aarch64_bin.tar.gz";
  java_expected_sha256 := "b3d588e16ec1e0ef9805d8a696591bd518a5cea62567da8f53b5ce32d11d22e4";
  ghidra_url := "https://github.com/NationalSecurityAgency/ghidra/releases/download/Ghidra_11.4.2_build/ghidra_11.4.2_PUBLIC_20250826.zip";
  ghidra_expected_sha256 := "795a02076af16257bd6f3f4736c4fc152ce9ff1f95df35cd47e2adc086e037a6";
  cwd := cwd
|}.

Definition temp_dir (g : Globals) : path := cwd g ++ ["ghidra_install"].
Definition applet_path (g : Globals) : path :=
  temp_dir g ++ ["Ghidra-OSX-Launcher-Script.scpt"].
Definition app_dir (g : Globals) : path := temp_dir g ++ ["Ghidra.app"].
Definition jdk_dir (g : Globals) : path := temp_dir g ++ ["jdk"].
Definition ghidra_dir (g : Globals) : path := temp_dir g ++ ["ghidra"].
Definition launch_script_path (g : Globals) : path :=
  temp_dir g ++ ["Ghidra.app"; "Contents"; "Resources"; "ghidra"; "support"; "launch.sh"].
Definition ghidra_run_path (g : Globals) : path :=
  temp_dir g ++ ["Ghidra.app"; "Contents"; "Resources"; "ghidra"; "ghidraRun"].

(** The loop [for byte_block in iter(lambda: f.read(4096), b""):
    sha256_hash.update(byte_block)] over what is left of the file. *)
Fixpoint read_blocks (fuel : nat) (rest : bytes) (sha256_hash : bytes) : bytes :=
  match fuel with
  | O => sha256_hash
  | S fuel' =>
      match take block_size rest with
      | [] => sha256_hash
      | byte_block =>
          read_blocks fuel' (drop block_size rest) (sha256_update sha256_hash byte_block)
      end
  end.

Definition calculate_sha256 (file_path : path) : M string :=
  try_except
    (content ← read_file file_path;
     ret (sha256_hexdigest (read_blocks (S (length content)) content sha256_new)))
    (fun e => print (ErrorCalculatingChecksum file_path e);; raise e).

Definition verify_checksum (file_path : path) (expected_sha256 file_name : string)
    : M bool :=
  try_except
    (print (VerifyingChecksum file_name);;
     actual_sha256 ← calculate_sha256 file_path;
     if String.eqb actual_sha256 expected_sha256 then
       print (ChecksumPassed file_name);; ret true
     else
       print (ChecksumFailed file_name);;
       print (ChecksumExpected expected_sha256);;
       print (ChecksumActual actual_sha256);;
       ret false)
    (fun e => print (ErrorVerifyingChecksum file_name e);; ret false).

Definition add_execute_permissions (file_path : path) : M unit :=
  try_except_CalledProcessError
    (subprocess_run_check ["chmod"; "+x"; path_str file_path];;
     print (AddedExecutePermissions file_path))
    (fun e => print (ErrorAddingExecutePermissions file_path e);; raise e).

(** [env = os.environ.copy()] with [JAVA_HOME] set and the JDK's [bin]
    put in front of [PATH]. *)
Definition build_env (environ : list (string * string)) (jdk_home : path)
    : list (string * string) :=
  let env := assoc_set "JAVA_HOME" (path_str jdk_home) environ in
  assoc_set "PATH"
    (String.append (path_str (jdk_home ++ ["bin"]))
       (String.append ":" (default "" (assoc "PATH" env))))
    env.

Definition build_native_binaries (ghidra_dir jdk_home : path) : M bool :=
  try_except
    (let gradle_dir := ghidra_dir ++ ["support"; "gradle"] in
     gradle_dir_exists ← os_path_exists gradle_dir;
     if negb gradle_dir_exists then
       print (GradleDirectoryNotFound gradle_dir);; ret false
     else
       print BuildingNativeBinaries;;
       print (UsingJdk jdk_home);;
       let gradlew_path := gradle_dir ++ ["gradlew"] in
       gradlew_exists ← os_path_exists gradlew_path;
       when gradlew_exists (add_execute_permissions gradlew_path);;
       E ← ask;
       let env := build_env (environ E) jdk_home in
       result ← subprocess_run ["./gradlew"; "buildNatives"] (Some gradle_dir) (Some env);
       if result.1.1 =? 0 then
         print NativeBinariesBuilt;; ret true
       else
         print (GradleBuildFailed result.1.1);;
         print (GradleStdout result.1.2);;
         print (GradleStderr result.2);;
         ret false)
    (fun e => print (ErrorBuildingNativeBinaries e);; ret false).

(** Python's truth value of an optional string: [None] and the empty string
    are false. *)
Definition truthy (s : option string) : bool :=
  match s with
  | Some s => negb (String.eqb s "")
  | None => false
  end.

(** Lines 149-165 of the script: the transfer and the verification of what
    was transferred. *)
Definition download_file_fetch (url : string) (dest : path)
    (expected_sha256 file_name : option string) : M unit :=
  try_except
    (print (Downloading url dest);;
     urlretrieve url dest;;
     if truthy expected_sha256 && truthy file_name then
       ok ← verify_checksum dest (default "" expected_sha256) (default "" file_name);
       if negb ok then raise (ChecksumException (default "" file_name)) else ret tt
     else ret tt)
    (fun e => print (ErrorDownloading url e);; raise e).

Definition download_file (url : string) (dest : path)
    (expected_sha256 file_name : option string) : M unit :=
  dest_exists ← os_path_exists dest;
  if dest_exists then
    print (AlreadyExistsSkippingDownload dest);;
    if truthy expected_sha256 && truthy file_name then
      ok ← verify_checksum dest (default "" expected_sha256) (default "" file_name);
      if negb ok then
        print ExistingFileFailedRedownloading;;
        os_remove dest;;
        download_file_fetch url dest expected_sha256 file_name
      else ret tt
    else download_file_fetch url dest expected_sha256 file_name
  else download_file_fetch url dest expected_sha256 file_name.

Definition extract_zip (file_path dest_dir : path) : M unit :=
  try_except
    (print (Extracting file_path dest_dir);;
     content ← read_file file_path;
     E ← ask;
     match unzip E content with
     | Some members => zip_extractall members dest_dir
     | None => raise BadZipFile
     end)
    (fun e => print (ErrorExtracting file_path e);; raise e).

Definition extract_tar_gz (file_path dest_dir : path) : M unit :=
  try_except
    (print (Extracting file_path dest_dir);;
     content ← read_file file_path;
     E ← ask;
     match untar_gz E content with
     | Some members => tar_extractall members dest_dir
     | None => raise ReadError
     end)
    (fun e => print (ErrorExtracting file_path e);; raise e).

(** Lines 194-198 and 215-219 of [main]: empty the extraction directory and
    unpack the archive into it. *)
Definition clean_and_extract (extract : path -> path -> M unit)
    (archive_path extract_dir : path) : M unit :=
  extract_dir_exists ← os_path_exists extract_dir;
  when extract_dir_exists (shutil_rmtree extract_dir);;
  os_makedirs extract_dir;;
  extract archive_path extract_dir.

(** Lines 199-205 and 220-226 of [main]: the first name that [os.listdir]
    returns for the extraction directory is copied to its place in the
    bundle, after whatever was at that place has been removed. *)
Definition install_first_entry (extract_dir final_app_dir : path) : M unit :=
  names ← os_listdir extract_dir;
  first ← index0 names;
  let extracted_dir := extract_dir ++ [first] in
  final_exists ← os_path_exists final_app_dir;
  when final_exists (shutil_rmtree final_app_dir);;
  shutil_copytree extracted_dir final_app_dir.

Definition jdk_final_app_dir (g : Globals) : path :=
  app_dir g ++ ["Contents"; "Resources"; "jdk"].
Definition ghidra_final_app_dir (g : Globals) : path :=
  app_dir g ++ ["Contents"; "Resources"; "ghidra"].
Definition jdk_home (g : Globals) : path :=
  app_dir g ++ ["Contents"; "Resources"; "jdk"; "Contents"; "Home"].

(** Line 188: [osacompile] creates [Ghidra.app]. *)
Definition step1_create_app (g : Globals) : M unit :=
  subprocess_run_check
    ["osacompile"; "-o"; path_str (app_dir g); path_str (applet_path g)];;
  print (CreatedGhidraApp (app_dir g)).

(** Step 2, lines 191-205: download and extract OpenJDK. *)
Definition step2_openjdk (g : Globals) : M unit :=
  let jdk_tar_path := temp_dir g ++ ["openjdk.tar.gz"] in
  download_file (java_url g) jdk_tar_path (Some (java_expected_sha256 g)) (Some "OpenJDK");;
  clean_and_extract extract_tar_gz jdk_tar_path (jdk_dir g);;
  install_first_entry (jdk_dir g) (jdk_final_app_dir g).

(** Step 3, lines 212-226: download and extract Ghidra. *)
Definition step3_ghidra (g : Globals) : M unit :=
  let ghidra_zip_path := temp_dir g ++ ["ghidra.zip"] in
  download_file (ghidra_url g) ghidra_zip_path (Some (ghidra_expected_sha256 g)) (Some "Ghidra");;
  clean_and_extract extract_zip ghidra_zip_path (ghidra_dir g);;
  install_first_entry (ghidra_dir g) (ghidra_final_app_dir g).

(** Step 4, lines 228-231: build the native binaries; a failed build only
    prints a warning. *)
Definition step4_build_natives (g : Globals) : M unit :=
  built ← build_native_binaries (ghidra_final_app_dir g) (jdk_home g);
  when (negb built) (print NativeBuildWarning).

(** Step 5, lines 233-237: execute permissions for the launchers, then the
    confirmation. *)
Definition step5_permissions (g : Globals) : M unit :=
  add_execute_permissions (launch_script_path g);;
  add_execute_permissions (ghidra_run_path g);;
  print InstallationCompleted.

(** The handler of both [try] statements of [main]. *)
Definition installation_failed (e : exn) : M unit :=
  print (InstallationFailed e);; exit None.

Definition main_try1 (g : Globals) : M unit :=
  step1_create_app g;; step2_openjdk g.

Definition main_try2 (g : Globals) : M unit :=
  step3_ghidra g;; step4_build_natives g;; step5_permissions g.

Definition main (g : Globals) : M unit :=
  try_except (main_try1 g) installation_failed;;
  try_except (main_try2 g) installation_failed.

(** ** Auxiliary definitions for the statements *)

(** The exception with which opening [p] for reading fails. *)
Definition read_error (root : node) (p : path) : exn :=
  match lookup_node p root with
  | Some (Dir _) => IsADirectoryError p
  | _ => FileNotFoundError p
  end.

(** The lines [verify_checksum] prints. *)
Definition verify_log (root : node) (file_path : path)
    (expected_sha256 file_name : string) : list event :=
  Print (VerifyingChecksum file_name) ::
  match file_at root file_path with
  | Some content =>
      if String.eqb (Sha256.hexdigest content) expected_sha256
      then [Print (ChecksumPassed file_name)]
      else [Print (ChecksumFailed file_name);
            Print (ChecksumExpected expected_sha256);
            Print (ChecksumActual (Sha256.hexdigest content))]
  | None =>
      let e := read_error root file_path in
      [Print (ErrorCalculatingChecksum file_path e);
       Print (ErrorVerifyingChecksum file_name e)]
  end.

(** The file at [file_path] can be read and has the expected digest. *)
Definition digest_matches (root : node) (file_path : path) (expected_sha256 : string)
    : bool :=
  match file_at root file_path with
  | Some content => String.eqb (Sha256.hexdigest content) expected_sha256
  | None => false
  end.

(** The outcome of [write_file p c] on the tree [root]. *)
Definition write_result (root : node) (p : path) (c : bytes) : exn + node :=
  match lookup_node p root with
  | Some (Dir _) => inl (IsADirectoryError p)
  | _ => match put_node p (File c) root with
         | Some root' => inr root'
         | None => inl (FileNotFoundError p)
         end
  end.

(** What [download_file_fetch] does. *)
Definition fetch_result (url : string) (dest : path)
    (expected_sha256 file_name : option string) (E : Env) (w : World)
    : result unit * World :=
  let w1 := logged w [Print (Downloading url dest); UrlRetrieve url dest] in
  match urlopen E url with
  | None => (Raise (URLError url), logged w1 [Print (ErrorDownloading url (URLError url))])
  | Some content =>
      match write_result (w_root w) dest content with
      | inl e => (Raise e, logged w1 [Print (ErrorDownloading url e)])
      | inr root' =>
          let w2 := mkWorld root' (w_log w1) in
          if truthy expected_sha256 && truthy file_name then
            let d := default "" expected_sha256 in
            let n := default "" file_name in
            if digest_matches root' dest d
            then (Ok tt, logged w2 (verify_log root' dest d n))
            else (Raise (ChecksumException n),
                  logged w2 (verify_log root' dest d n ++
                             [Print (ErrorDownloading url (ChecksumException n))]))
          else (Ok tt, w2)
      end
  end.

(** The outcome of [os_remove p] on the tree [root]. *)
Definition remove_result (root : node) (p : path) : exn + node :=
  match lookup_node p root with
  | Some (File _) =>
      match del_node p root with
      | Some root' => inr root'
      | None => inl (FileNotFoundError p)
      end
  | Some (Dir _) => inl (IsADirectoryError p)
  | None => inl (FileNotFoundError p)
  end.

(** What [download_file] does. *)
Definition download_result (url : string) (dest : path)
    (expected_sha256 file_name : option string) (E : Env) (w : World)
    : result unit * World :=
  if exists_at (w_root w) dest then
    let w1 := logged w [Print (AlreadyExistsSkippingDownload dest)] in
    if truthy expected_sha256 && truthy file_name then
      let d := default "" expected_sha256 in
      let n := default "" file_name in
      if digest_matches (w_root w) dest d
      then (Ok tt, logged w1 (verify_log (w_root w) dest d n))
      else
        let w2 := logged w1 (verify_log (w_root w) dest d n ++
                             [Print ExistingFileFailedRedownloading]) in
        match remove_result (w_root w) dest with
        | inr root' =>
            fetch_result url dest expected_sha256 file_name E (mkWorld root' (w_log w2))
        | inl e => (Raise e, w2)
        end
    else fetch_result url dest expected_sha256 file_name E w1
  else fetch_result url dest expected_sha256 file_name E w.

(** What [add_execute_permissions] does. *)
Definition add_execute_permissions_result (file_path : path) (E : Env) (w : World)
    : result unit * World :=
  let argv := ["chmod"; "+x"; path_str file_path] in
  let w1 := logged w [Run argv None None] in
  match launch E argv None None (w_root w) with
  | Completed rc out err root' =>
      if rc =? 0 then
        (Ok tt, mkWorld root' (w_log w1 ++ [Print (AddedExecutePermissions file_path)]))
      else
        let e := CalledProcessError argv rc in
        (Raise e,
         mkWorld root' (w_log w1 ++ [Print (ErrorAddingExecutePermissions file_path e)]))
  | LaunchError e =>
      if is_CalledProcessError e
      then (Raise e, logged w1 [Print (ErrorAddingExecutePermissions file_path e)])
      else (Raise e, w1)
  end.

(** A computation that never leaves through [exit()]. *)
Definition never_exits {A} (m : M A) : Prop :=
  ∀ E w c w', m E w ≠ (Exit c, w').

(** The status with which the interpreter ends: zero after a normal return,
    one after an uncaught exception, and what [SystemExit] carries. *)
Definition process_status {A} (r : result A) : Z :=
  match r with
  | Ok _ => 0
  | Raise _ => 1
  | Exit code => exit_status code
  end.

(** Nothing outside [dest] differs between [root] and [root']. *)
Definition same_outside (dest : path) (root root' : node) : Prop :=
  ∀ q, ¬ dest `prefix_of` q → os_stat root' q = os_stat root q.

Definition is_print (ev : event) : bool :=
  match ev with Print _ => true | _ => false end.

Definition is_run (ev : event) : bool :=
  match ev with Run _ _ _ => true | _ => false end.

Definition is_url_retrieve (ev : event) : bool :=
  match ev with UrlRetrieve _ _ => true | _ => false end.

(** ** A small installation to run the script on *)

Definition is_bytes (s : string) (b : bytes) : bool :=
  String.eqb (String.string_of_list_byte b) s.

Definition demo_globals : Globals := {|
  java_url := "https://example.org/jdk.tar.gz";
  java_expected_sha256 :=
    "c50e2535b0ac0d30c33bc98c9f23815badde2c01ad0ba43a109ecc319207034d";
  ghidra_url := "https://example.org/ghidra.zip";
  ghidra_expected_sha256 :=
    "4357ecfb2e88ece03062aeba9572b56c8c7f83e1a527b281cdf456638d421ed3";
  cwd := ["work"]
|}.

(** [/work/ghidra_install] holds the applet script and nothing else. *)
Definition demo_root : node :=
  Dir [("work",
        Dir [("ghidra_install",
              Dir [("Ghidra-OSX-Launcher-Script.scpt", File (bytes_of "applet"))])])].

(** [osacompile] creates the bundle directory, [chmod] succeeds, the Gradle
    build fails with status 1. *)
Definition demo_spawn (argv : list string) (cwd : option path)
    (env : option (list (string * string))) (root : node) : completed :=
  match argv with
  | "osacompile" :: _ =>
      Completed 0 "" "" (default root (mkdirs (app_dir demo_globals) root))
  | "chmod" :: _ => Completed 0 "" "" root
  | "./gradlew" :: _ => Completed 1 "" "BUILD FAILED" root
  | _ => LaunchError (OSError "command not found")
  end.

Definition demo_jdk_members : list TarInfo :=
  [ mkTarInfo "jdk-21.0.2.jdk/" DIRTYPE [];
    mkTarInfo "jdk-21.0.2.jdk/Contents/Home/bin/java" REGTYPE (bytes_of "java") ].

Definition demo_ghidra_members : list ZipInfo :=
  [ mkZipInfo "ghidra_11.4.2_PUBLIC/" [];
    mkZipInfo "ghidra_11.4.2_PUBLIC/ghidraRun" (bytes_of "run");
    mkZipInfo "ghidra_11.4.2_PUBLIC/support/launch.sh" (bytes_of "launch") ].

(** The two URLs serve the archives [jdk-archive] and [ghidra-archive],
    whose SHA-256 digests are those of [demo_globals]. *)
Definition demo_env : Env := {|
  urlopen := fun url =>
    if String.eqb url "https://example.org/jdk.tar.gz" then Some (bytes_of "jdk-archive")
    else if String.eqb url "https://example.org/ghidra.zip" then Some (bytes_of "ghidra-archive")
    else None;
  spawn := demo_spawn;
  environ := [("HOME", "/Users/me"); ("PATH", "/usr/bin")];
  untar_gz := fun b => if is_bytes "jdk-archive" b then Some demo_jdk_members else None;
  unzip := fun b => if is_bytes "ghidra-archive" b then Some demo_ghidra_members else None
|}.

Definition demo_world : World := mkWorld demo_root [].

Definition demo_tar_path : path := ["work"; "ghidra_install"; "openjdk.tar.gz"].

(** The digest of the bytes [good], which no URL of [demo_env] serves. *)
Definition sha256_of_good : string :=
  "770e607624d689265ca6c44884d0807d9b054d23c473c106c72be9de08b7376c".

(** [demo_world] with a file [old] already at [demo_tar_path]. *)
Definition cached_world : World :=
  mkWorld
    (Dir [("work",
           Dir [("ghidra_install",
                 Dir [("Ghidra-OSX-Launcher-Script.scpt", File (bytes_of "applet"));
                      ("openjdk.tar.gz", File (bytes_of "old"))])])])
    [].

(** A Ghidra tree in [/opt/ghidra] whose [support/gradle] directory is there
    but holds no [gradlew]. *)
Definition no_wrapper_world : World :=
  mkWorld
    (Dir [("opt", Dir [("ghidra", Dir [("support", Dir [("gradle", Dir [])])])])])
    [].

(** The globals of [demo_globals], except that the digest expected for the
    JDK is that of other bytes than the URL serves. *)
Definition mismatch_globals : Globals := {|
  java_url := java_url demo_globals;
  java_expected_sha256 := sha256_of_good;
  ghidra_url := ghidra_url demo_globals;
  ghidra_expected_sha256 := ghidra_expected_sha256 demo_globals;
  cwd := cwd demo_globals
|}.

(** Two archives and an empty directory [/work/out] to unpack them into.
    [evil.tar.gz] holds an entry that climbs out of the destination, followed
    by a harmless one; [abs.tar.gz] holds an entry with an absolute name;
    [mixed.tar.gz] holds the harmless entry first. *)
Definition tool_member : TarInfo :=
  mkTarInfo "payload/bin/tool" REGTYPE (bytes_of "tool").
Definition evil_member : TarInfo :=
  mkTarInfo "../../etc/evil" REGTYPE (bytes_of "evil").
Definition absolute_member : TarInfo :=
  mkTarInfo "/etc/evil" REGTYPE (bytes_of "evil").

Definition archive_env : Env := {|
  urlopen := fun _ => None;
  spawn := demo_spawn;
  environ := [];
  untar_gz := fun b =>
    if is_bytes "evil-first" b then Some [evil_member; tool_member]
    else if is_bytes "tool-first" b then Some [tool_member; evil_member]
    else if is_bytes "absolute" b then Some [absolute_member]
    else if is_bytes "empty" b then Some []
    else None;
  unzip := fun _ => None
|}.

Definition archive_world : World :=
  mkWorld
    (Dir [("work",
           Dir [("evil.tar.gz", File (bytes_of "evil-first"));
                ("mixed.tar.gz", File (bytes_of "tool-first"));
                ("abs.tar.gz", File (bytes_of "absolute"));
                ("out", Dir [])])])
    [].

(** An extraction directory [/work/ex] with two top-level entries, [first]
    and [second], and no bundle yet. *)
Definition two_entries_world : World :=
  mkWorld
    (Dir [("work",
           Dir [("ex",
                 Dir [("first", Dir [("bin", Dir [("java", File (bytes_of "java"))])]);
                      ("second", Dir [("notes", File (bytes_of "notes"))])])])])
    [].

(** [demo_env] with a Ghidra archive that brings its Gradle wrapper; the
    build still ends with status 1. *)
Definition gradle_env : Env := {|
  urlopen := urlopen demo_env;
  spawn := demo_spawn;
  environ := environ demo_env;
  untar_gz := untar_gz demo_env;
  unzip := fun b =>
    if is_bytes "ghidra-archive" b then
      Some (demo_ghidra_members ++
            [mkZipInfo "ghidra_11.4.2_PUBLIC/support/gradle/gradlew" (bytes_of "gradlew")])
    else None
|}.

(** An installation whose JDK archive, [empty-archive], has no members. *)
Definition empty_globals : Globals := {|
  java_url := "https://example.org/empty.tar.gz";
  java_expected_sha256 :=
    "dd6363e007cf9cb63baf85773d16a3b04416135873395cf205f70af1920a1ea4";
  ghidra_url := ghidra_url demo_globals;
  ghidra_expected_sha256 := ghidra_expected_sha256 demo_globals;
  cwd := cwd demo_globals
|}.

Definition empty_env : Env := {|
  urlopen := fun url =>
    if String.eqb url "https://example.org/empty.tar.gz"
    then Some (bytes_of "empty-archive") else None;
  spawn := demo_spawn;
  environ := [];
  untar_gz := fun b => if is_bytes "empty-archive" b then Some [] else None;
  unzip := fun _ => None
|}.

(** [demo_env] with the network down. *)
Definition offline_env : Env := {|
  urlopen := fun _ => None;
  spawn := demo_spawn;
  environ := environ demo_env;
  untar_gz := untar_gz demo_env;
  unzip := unzip demo_env
|}.

(** ** What a computation shows to the outside *)

(** Run in the environment [E], the computation [m] adds to the log only
    events that satisfy [P], and removes none. *)
Definition emits (P : event → Prop) (E : Env) {A} (m : M A) : Prop :=
  ∀ w, ∃ evs, w_log (m E w).2 = w_log w ++ evs ∧ Forall P evs.

(** The events of [download_file url dest]: lines of output and the
    transfer of [url] to [dest]. *)
Definition download_event (url : string) (dest : path) (ev : event) : Prop :=
  match ev with
  | Print _ => True
  | UrlRetrieve url' dest' => url' = url ∧ dest' = dest
  | Run _ _ _ => False
  end.

(** The events of [add_execute_permissions file_path]. *)
Definition chmod_event (file_path : path) (ev : event) : Prop :=
  match ev with
  | Print _ => True
  | Run argv cwd env => argv = ["chmod"; "+x"; path_str file_path] ∧ cwd = None ∧ env = None
  | UrlRetrieve _ _ => False
  end.

(** The events of [build_native_binaries ghidra_dir jdk_home] in the
    environment [E]. *)
Definition build_event (ghidra_dir jdk_home : path) (E : Env) (ev : event) : Prop :=
  match ev with
  | Print _ => True
  | Run argv cwd env =>
      (argv = ["chmod"; "+x"; path_str (ghidra_dir ++ ["support"; "gradle"; "gradlew"])] ∧
       cwd = None ∧ env = None) ∨
      (argv = ["./gradlew"; "buildNatives"] ∧
       cwd = Some (ghidra_dir ++ ["support"; "gradle"]) ∧
       env = Some (build_env (environ E) jdk_home))
  | UrlRetrieve _ _ => False
  end.

(** Everything [main] may do to the outside: print, transfer one of the two
    archives to its place in the working directory, and run [osacompile],
    [chmod +x] on the wrapper and the two launchers, and the Gradle
    wrapper. *)
Definition main_event (g : Globals) (E : Env) (ev : event) : Prop :=
  match ev with
  | Print _ => True
  | UrlRetrieve url dest =>
      (url = java_url g ∧ dest = temp_dir g ++ ["openjdk.tar.gz"]) ∨
      (url = ghidra_url g ∧ dest = temp_dir g ++ ["ghidra.zip"])
  | Run argv cwd env =>
      (argv = ["osacompile"; "-o"; path_str (app_dir g); path_str (applet_path g)] ∧
       cwd = None ∧ env = None) ∨
      build_event (ghidra_final_app_dir g) (jdk_home g) E ev ∨
      chmod_event (launch_script_path g) ev ∨
      chmod_event (ghidra_run_path g) ev
  end.

(** The number of network transfers among the events [evs]. *)
Definition transfers (evs : list event) : nat :=
  length (filter (fun ev => is_url_retrieve ev = true) evs).

(** [demo_env] on a machine where [osacompile] and [chmod] end with
    status 1. *)
Definition failing_tools_env : Env := {|
  urlopen := urlopen demo_env;
  spawn := fun argv cwd env root => Completed 1 "" "failed" root;
  environ := environ demo_env;
  untar_gz := untar_gz demo_env;
  unzip := unzip demo_env
|}.

(** [demo_env] on a machine without [chmod]. *)
Definition no_chmod_env : Env := {|
  urlopen := urlopen demo_env;
  spawn := fun argv cwd env root => LaunchError (FileNotFoundError ["chmod"]);
  environ := environ demo_env;
  untar_gz := untar_gz demo_env;
  unzip := unzip demo_env
|}.

(** A file of 5000 bytes, more than one block of [calculate_sha256]. *)
Definition big_file_world : World :=
  mkWorld (Dir [("big.bin", File (replicate 5000 Byte.x61))]) [].

(** A zip archive with a member that tries to climb out of the destination,
    and an empty directory [/work/out] to unpack it into. *)
Definition zip_env : Env := {|
  urlopen := fun _ => None;
  spawn := demo_spawn;
  environ := [];
  untar_gz := fun _ => None;
  unzip := fun b =>
    if is_bytes "zip-with-dots" b then
      Some [mkZipInfo "payload/" [];
            mkZipInfo "payload/bin/tool" (bytes_of "tool");
            mkZipInfo "../../etc/evil" (bytes_of "evil")]
    else None
|}.

Definition zip_world : World :=
  mkWorld
    (Dir [("work",
           Dir [("dots.zip", File (bytes_of "zip-with-dots"));
                ("broken.zip", File (bytes_of "not a zip"));
                ("out", Dir [])])])
    [].

(** An extraction directory with a stale file in it. *)
Definition stale_world : World :=
  mkWorld
    (Dir [("work",
           Dir [("mixed.tar.gz", File (bytes_of "tool-first"));
                ("ex", Dir [("stale", File (bytes_of "stale"))])])])
    [].

(** An extraction directory whose first entry is a regular file, and a
    bundle that holds an older installation. *)
Definition file_first_world : World :=
  mkWorld
    (Dir [("work",
           Dir [("ex", Dir [("README", File (bytes_of "readme"));
                            ("jdk", Dir [("bin", Dir [])])]);
                ("bundle", Dir [("old", File (bytes_of "old"))])])])
    [].

(** A digit of a digest as [hexdigest] prints it: [0] to [9] or [a] to [f]. *)
Definition is_lower_hex (c : Ascii.ascii) : bool :=
  let n := Ascii.N_of_ascii c in
  ((48 <=? n)%N && (n <=? 57)%N) || ((97 <=? n)%N && (n <=? 102)%N).

Fixpoint all_lower_hex (s : string) : bool :=
  match s with
  | EmptyString => true
  | String c rest => is_lower_hex c && all_lower_hex rest
  end.

(** A string that can be a SHA-256 hex digest: 64 lower-case hex digits. *)
Definition well_formed_digest (s : string) : bool :=
  (String.length s =? 64)%nat && all_lower_hex s.

(** * Properties *)

(** ** SHA-256 on the test vectors of hashlib *)

Example sha256_empty :
  Sha256.hexdigest [] =
  "e3b0c44298fc1c149afbf4c8996fb92427ae41e4649b934ca495991b7852b855".
Proof. vm_compute. reflexivity. Qed.

Example sha256_abc :
  Sha256.hexdigest (bytes_of "abc") =
  "ba7816bf8f01cfea414140de5dae2223b00361a396177a9cb410ff61f20015ad".
Proof. vm_compute. reflexivity. Qed.

Example sha256_5000 :
  Sha256.hexdigest (replicate 5000 Byte.x61) =
  "c526c6222044dab5674de9c4ac7f4566ebb5e4d8bf9d8ea34c9cc8a7cc3c869c".
Proof. vm_compute. reflexivity. Qed.

(** ** Association lists *)

Section AssocFacts.
Context {V : Type}.
Implicit Types (k : string) (v : V) (es : list (string * V)).

Lemma assoc_set_eq k v es : assoc k (assoc_set k v es) = Some v.
Proof.
  induction es as [|[k' v'] es IH]; simpl.
  - by rewrite String.eqb_refl.
  - destruct (String.eqb_spec k k') as [->|Hne]; simpl.
    + by rewrite String.eqb_refl.
    + by destruct (String.eqb_spec k k').
Qed.

Lemma assoc_set_ne k k' v es : k' ≠ k → assoc k' (assoc_set k v es) = assoc k' es.
Proof.
  intros Hne. induction es as [|[k0 v0] es IH]; simpl.
  - by destruct (String.eqb_spec k' k).
  - destruct (String.eqb_spec k k0) as [->|Hk]; simpl.
    + by destruct (String.eqb_spec k' k0).
    + destruct (String.eqb_spec k' k0); [done|apply IH].
Qed.

Lemma assoc_del_eq k es : assoc k (assoc_del k es) = None.
Proof.
  induction es as [|[k' v'] es IH]; simpl; [done|].
  destruct (String.eqb_spec k k') as [->|Hne]; simpl; [done|].
  by destruct (String.eqb_spec k k').
Qed.

Lemma assoc_del_ne k k' es : k' ≠ k → assoc k' (assoc_del k es) = assoc k' es.
Proof.
  intros Hne. induction es as [|[k0 v0] es IH]; simpl; [done|].
  destruct (String.eqb_spec k k0) as [->|Hk]; simpl.
  - by destruct (String.eqb_spec k' k0).
  - by destruct (String.eqb_spec k' k0).
Qed.
End AssocFacts.

(** ** The file-system tree *)

Lemma lookup_node_app p q n :
  lookup_node (p ++ q) n = lookup_node p n ≫= lookup_node q.
Proof.
  revert n. induction p as [|c p IH]; intros n; simpl; [done|].
  destruct n as [|es]; [done|]. destruct (assoc c es); [apply IH|done].
Qed.

Lemma os_stat_nil n : os_stat n [] = Some (stat_of n).
Proof. done. Qed.

Lemma os_stat_cons c q es :
  os_stat (Dir es) (c :: q) = assoc c es ≫= fun m => os_stat m q.
Proof. unfold os_stat; simpl. by destruct (assoc c es). Qed.

Lemma os_stat_file c q d : os_stat (File d) (c :: q) = None.
Proof. done. Qed.

Lemma prefix_cons_iff (c c' : string) (p q : path) :
  (c :: p) `prefix_of` (c' :: q) ↔ c = c' ∧ p `prefix_of` q.
Proof.
  split.
  - intros H. split; [by eapply prefix_cons_inv_1|by eapply prefix_cons_inv_2].
  - intros [-> H]. by apply prefix_cons.
Qed.

(** Above a node that exists there are only directories. *)
Lemma os_stat_ancestor q r n x :
  lookup_node (q ++ r) n = Some x → r ≠ [] → os_stat n q = Some SDir.
Proof.
  rewrite lookup_node_app. unfold os_stat.
  destruct (lookup_node q n) as [[d|es]|]; simpl; try done.
  destruct r; done.
Qed.

Lemma put_node_lookup p new n n' :
  put_node p new n = Some n' → lookup_node p n' = Some new.
Proof.
  revert n n'. induction p as [|c p IH]; intros n n' H; simpl in *.
  - by simplify_eq.
  - destruct n as [|es]; [done|]. destruct p as [|c' p].
    + simplify_eq. simpl. by rewrite assoc_set_eq.
    + destruct (assoc c es) as [m|] eqn:Hm; [|done].
      destruct (put_node (c' :: p) new m) as [m'|] eqn:Hput; simplify_eq/=.
      rewrite assoc_set_eq. by eapply IH.
Qed.

(** Writing at [p] leaves everything that is not below [p] as it was. *)
Lemma put_node_stat p new n n' q :
  put_node p new n = Some n' → ¬ p `prefix_of` q → os_stat n' q = os_stat n q.
Proof.
  revert n n' q. induction p as [|c p IH]; intros n n' q H Hq.
  - destruct Hq. apply prefix_nil.
  - simpl in H. destruct n as [|es]; [done|].
    destruct q as [|c' q].
    { destruct p; [by simplify_eq|].
      destruct (assoc c es); [|done].
      destruct (put_node _ _ _); by simplify_eq/=. }
    destruct (decide (c' = c)) as [->|Hc].
    + destruct p as [|c0 p].
      { destruct Hq. apply prefix_cons, prefix_nil. }
      destruct (assoc c es) as [m|] eqn:Hm; [|done].
      destruct (put_node (c0 :: p) new m) as [m'|] eqn:Hput; simplify_eq/=.
      rewrite !os_stat_cons, assoc_set_eq, Hm. simpl.
      eapply IH; [done|]. intros Hp. apply Hq. by apply prefix_cons.
    + assert (os_stat n' (c' :: q) = os_stat (Dir es) (c' :: q)) as ->; [|done].
      destruct p as [|c0 p].
      * simplify_eq. by rewrite !os_stat_cons, assoc_set_ne.
      * destruct (assoc c es) as [m|]; [|done].
        destruct (put_node _ _ _); simplify_eq/=.
        by rewrite !os_stat_cons, assoc_set_ne.
Qed.

Lemma put_node_child d c new n es :
  lookup_node d n = Some (Dir es) → is_Some (put_node (d ++ [c]) new n).
Proof.
  revert n. induction d as [|c0 d IH]; intros n H; simpl in *.
  - simplify_eq. done.
  - destruct n as [|es0]; [done|].
    destruct (assoc c0 es0) as [m|] eqn:Hm; [|done].
    destruct (IH _ H) as [m' Hm']. rewrite Hm'. simpl.
    destruct (d ++ [c]) eqn:Hd; [by destruct d|]. done.
Qed.

(** [mkdirs] adds directories on the way to [p] and changes nothing else. *)
Lemma mkdirs_stat p n n' q :
  mkdirs p n = Some n' →
  os_stat n' q = if decide (q `prefix_of` p) then Some SDir else os_stat n q.
Proof.
  revert n n' q. induction p as [|c p IH]; intros n n' q H.
  - destruct n as [|es]; simplify_eq/=.
    destruct q as [|c' q].
    + by rewrite decide_True by done.
    + rewrite decide_False; [done|]. intros Hp. by apply prefix_nil_inv in Hp.
  - destruct n as [|es]; [done|]. simpl in H.
    assert (∃ m m', mkdirs p m = Some m' ∧ n' = Dir (assoc_set c m' es) ∧
              (assoc c es = Some m ∨ assoc c es = None ∧ m = Dir []))
      as (m & m' & Hm & -> & Hc).
    { destruct (assoc c es) as [m|] eqn:Hc.
      - destruct (mkdirs p m) as [m'|] eqn:Hm; simplify_eq/=. eauto 10.
      - destruct (mkdirs p (Dir [])) as [m'|] eqn:Hm; simplify_eq/=. eauto 10. }
    destruct q as [|c' q].
    { rewrite decide_True; [done|apply prefix_nil]. }
    destruct (decide (c' = c)) as [->|Hne].
    + rewrite os_stat_cons, assoc_set_eq. simpl. rewrite (IH _ _ q Hm).
      destruct (decide (q `prefix_of` p)) as [Hq|Hq].
      * rewrite decide_True; [done|by apply prefix_cons].
      * rewrite decide_False by (by intros [_ ?]%prefix_cons_iff).
        rewrite os_stat_cons. destruct Hc as [->|[-> ->]]; simpl; [done|].
        destruct q; [|done]. destruct Hq. apply prefix_nil.
    + rewrite decide_False by (by intros [? _]%prefix_cons_iff).
      by rewrite !os_stat_cons, assoc_set_ne.
Qed.

Lemma del_node_lookup p n n' : del_node p n = Some n' → lookup_node p n' = None.
Proof.
  revert n n'. induction p as [|c p IH]; intros n n' H; simpl in *; [done|].
  destruct n as [|es]; [done|].
  destruct (assoc c es) as [m|] eqn:Hm; [|done].
  destruct p as [|c' p].
  - simplify_eq. simpl. by rewrite assoc_del_eq.
  - destruct (del_node (c' :: p) m) as [m'|] eqn:Hd; simplify_eq/=.
    rewrite assoc_set_eq. by eapply IH.
Qed.

Lemma del_node_is_Some p n x :
  p ≠ [] → lookup_node p n = Some x → is_Some (del_node p n).
Proof.
  revert n. induction p as [|c p IH]; intros n Hp H; [done|]. simpl in *.
  destruct n as [|es]; [done|].
  destruct (assoc c es) as [m|] eqn:Hm; [|done].
  destruct p as [|c' p]; [done|].
  destruct (IH m) as [m' ->]; done.
Qed.

(** Removing [p] leaves everything that is not below [p] as it was. *)
Lemma del_node_stat p n n' q :
  del_node p n = Some n' → ¬ p `prefix_of` q → os_stat n' q = os_stat n q.
Proof.
  revert n n' q. induction p as [|c p IH]; intros n n' q H Hq; [done|].
  simpl in H. destruct n as [|es]; [done|].
  destruct (assoc c es) as [m|] eqn:Hm; [|done].
  destruct q as [|c' q].
  { destruct p; [by simplify_eq|]. destruct (del_node _ _); by simplify_eq/=. }
  destruct (decide (c' = c)) as [->|Hc].
  - destruct p as [|c0 p].
    { destruct Hq. apply prefix_cons, prefix_nil. }
    destruct (del_node (c0 :: p) m) as [m'|] eqn:Hd; simplify_eq/=.
    rewrite !os_stat_cons, assoc_set_eq, Hm. simpl.
    eapply IH; [done|]. intros Hp. apply Hq. by apply prefix_cons.
  - destruct p as [|c0 p].
    + simplify_eq. by rewrite !os_stat_cons, assoc_del_ne.
    + destruct (del_node _ _); simplify_eq/=.
      by rewrite !os_stat_cons, assoc_set_ne.
Qed.

(** Away from [p] the whole subtree is untouched by a removal. *)
Lemma del_node_lookup_ne p n n' q :
  del_node p n = Some n' → ¬ p `prefix_of` q → ¬ q `prefix_of` p →
  lookup_node q n' = lookup_node q n.
Proof.
  revert n n' q. induction p as [|c p IH]; intros n n' q H Hq Hq'; [done|].
  simpl in H. destruct n as [|es]; [done|].
  destruct (assoc c es) as [m|] eqn:Hm; [|done].
  destruct q as [|c' q]; [destruct Hq'; apply prefix_nil|].
  destruct (decide (c' = c)) as [->|Hc].
  - destruct p as [|c0 p].
    { destruct Hq. apply prefix_cons, prefix_nil. }
    destruct (del_node (c0 :: p) m) as [m'|] eqn:Hd; simplify_eq/=.
    rewrite assoc_set_eq, Hm.
    eapply IH; [done| |]; intros Hp; [apply Hq|apply Hq']; by apply prefix_cons.
  - destruct p as [|c0 p].
    + simplify_eq/=. by rewrite assoc_del_ne.
    + destruct (del_node _ _); simplify_eq/=. by rewrite assoc_set_ne.
Qed.

Lemma is_dir_stat root p : is_dir root p = true ↔ os_stat root p = Some SDir.
Proof.
  unfold is_dir, os_stat. destruct (lookup_node p root) as [[d|es]|]; simpl;
    split; intros; simplify_eq; done.
Qed.

(** ** Running computations *)

Arguments Sha256.hexdigest : simpl never.

(** Unfold the plumbing of the computations in the goal. *)
Ltac unfold_m :=
  repeat (unfold bind, ret, raise, exit, try_except, try_except_CalledProcessError,
            get_root, set_root, ask, emit, print, commit, when in * ).

Lemma logged_root w evs : w_root (logged w evs) = w_root w.
Proof. done. Qed.

Lemma logged_logged w evs evs' : logged (logged w evs) evs' = logged w (evs ++ evs').
Proof. unfold logged; simpl. by rewrite <-(assoc_L (++)). Qed.

Lemma logged_nil w : logged w [] = w.
Proof. destruct w. unfold logged; simpl. by rewrite app_nil_r. Qed.

Lemma bind_run {A B} (m : M A) (k : A → M B) E w :
  bind m k E w =
  match m E w with
  | (Ok a, w') => k a E w'
  | (Raise e, w') => (Raise e, w')
  | (Exit c, w') => (Exit c, w')
  end.
Proof. done. Qed.

Lemma ret_run {A} (a : A) E w : ret a E w = (Ok a, w).
Proof. done. Qed.

Lemma raise_run {A} e E w : raise (A:=A) e E w = (Raise e, w).
Proof. done. Qed.

Lemma ask_run E w : ask E w = (Ok E, w).
Proof. done. Qed.

Lemma try_except_run {A} (body : M A) (handler : exn → M A) E w :
  try_except body handler E w =
  match body E w with
  | (Raise e, w') => handler e E w'
  | r => r
  end.
Proof. done. Qed.

Lemma os_path_exists_run p E w :
  os_path_exists p E w = (Ok (exists_at (w_root w) p), w).
Proof. done. Qed.

Lemma print_run m E w : print m E w = (Ok tt, logged w [Print m]).
Proof. done. Qed.

(** Run the computation in the goal as far as it is determined. *)
Ltac step :=
  rewrite ?bind_run, ?ret_run, ?ask_run, ?raise_run, ?print_run,
    ?os_path_exists_run, ?try_except_run, ?logged_root;
  cbv beta iota.
Ltac steps := repeat (progress step).

(** ** The checksum of a file *)

Lemma block_size_pos : block_size ≠ 0%nat.
Proof. unfold block_size. lia. Qed.

(** Reading block by block feeds the hash object every byte of the file, in
    order, provided the loop may run once per byte and once more. *)
Lemma read_blocks_all fuel rest h :
  (length rest < fuel)%nat → read_blocks fuel rest h = h ++ rest.
Proof.
  revert rest h. induction fuel as [|fuel IH]; intros rest h Hlen; [lia|].
  simpl. destruct (take block_size rest) as [|b bs] eqn:Htake.
  - destruct rest as [|x rest]; [by rewrite app_nil_r|].
    pose proof block_size_pos. destruct block_size; [done|]. done.
  - rewrite <-Htake. rewrite IH.
    + unfold sha256_update. by rewrite <-(assoc_L (++)), take_drop.
    + rewrite length_drop. pose proof block_size_pos.
      assert (length rest ≠ 0)%nat by (destruct rest; [by rewrite take_nil in Htake|done]).
      lia.
Qed.

Arguments read_blocks : simpl never.

Lemma calculate_sha256_run file_path E w :
  calculate_sha256 file_path E w =
  match file_at (w_root w) file_path with
  | Some content => (Ok (Sha256.hexdigest content), w)
  | None =>
      let e := read_error (w_root w) file_path in
      (Raise e, logged w [Print (ErrorCalculatingChecksum file_path e)])
  end.
Proof.
  unfold calculate_sha256, read_file, file_at, read_error. unfold_m.
  destruct (lookup_node file_path (w_root w)) as [[content|es]|]; try done.
  unfold sha256_hexdigest. by rewrite read_blocks_all by lia.
Qed.

Lemma verify_checksum_run file_path expected_sha256 file_name E w :
  verify_checksum file_path expected_sha256 file_name E w =
  (Ok (digest_matches (w_root w) file_path expected_sha256),
   logged w (verify_log (w_root w) file_path expected_sha256 file_name)).
Proof.
  unfold verify_checksum, try_except, bind at 1.
  rewrite print_run. unfold bind at 1. rewrite calculate_sha256_run. simpl.
  unfold digest_matches, verify_log.
  destruct (file_at (w_root w) file_path) as [content|]; simpl.
  - destruct (String.eqb _ _); unfold_m; by rewrite ?logged_logged.
  - unfold_m. by rewrite !logged_logged.
Qed.

Lemma digest_matches_true root file_path expected_sha256 :
  digest_matches root file_path expected_sha256 = true ↔
  ∃ content, file_at root file_path = Some content ∧
             Sha256.hexdigest content = expected_sha256.
Proof.
  unfold digest_matches. destruct (file_at root file_path) as [content|].
  - rewrite String.eqb_eq. split.
    + intros H. by exists content.
    + by intros (c & [= <-] & H).
  - split; [done|]. by intros (c & [=] & _).
Qed.

(** ** Downloads *)

Lemma write_file_run p c E w :
  write_file p c E w =
  match write_result (w_root w) p c with
  | inr root' => (Ok tt, mkWorld root' (w_log w))
  | inl e => (Raise e, w)
  end.
Proof.
  unfold write_file, write_result. unfold_m.
  destruct (lookup_node p (w_root w)) as [[d|es]|]; try done;
    by destruct (put_node p (File c) (w_root w)).
Qed.

Lemma write_result_file root p c root' :
  write_result root p c = inr root' → file_at root' p = Some c.
Proof.
  unfold write_result, file_at. intros H.
  assert (put_node p (File c) root = Some root') as Hput.
  { destruct (lookup_node p root) as [[d|es]|]; try done;
      by destruct (put_node p (File c) root); simplify_eq. }
  by rewrite (put_node_lookup _ _ _ _ Hput).
Qed.

Lemma write_result_stat root p c root' q :
  write_result root p c = inr root' → ¬ p `prefix_of` q →
  os_stat root' q = os_stat root q.
Proof.
  unfold write_result. intros H.
  assert (put_node p (File c) root = Some root') as Hput.
  { destruct (lookup_node p root) as [[d|es]|]; try done;
      by destruct (put_node p (File c) root); simplify_eq. }
  by eapply put_node_stat.
Qed.

(** A file can be created in an existing directory. *)
Lemma write_result_new root d name c :
  is_dir root d = true → exists_at root (d ++ [name]) = false →
  ∃ root', write_result root (d ++ [name]) c = inr root'.
Proof.
  unfold is_dir, exists_at, write_result. intros Hd Hex.
  destruct (lookup_node (d ++ [name]) root); [done|].
  destruct (lookup_node d root) as [[?|es]|] eqn:Hl; try done.
  destruct (put_node_child d name (File c) root es Hl) as [root' ->]. eauto.
Qed.

Lemma write_result_fresh root dest c :
  exists_at root dest = false → is_dir root (dirname dest) = true →
  ∃ root', write_result root dest c = inr root'.
Proof.
  intros Hex Hdir. destruct dest as [|x dest] using rev_ind.
  { by destruct root. }
  unfold dirname in Hdir. rewrite removelast_last in Hdir.
  by apply write_result_new.
Qed.

Lemma download_file_fetch_run url dest expected_sha256 file_name E w :
  download_file_fetch url dest expected_sha256 file_name E w =
  fetch_result url dest expected_sha256 file_name E w.
Proof.
  unfold download_file_fetch, fetch_result, urlretrieve.
  unfold try_except, bind at 1. rewrite print_run.
  unfold bind at 1. unfold bind at 1. unfold emit at 1. unfold bind at 1, ask at 1.
  rewrite !logged_logged. simpl.
  destruct (urlopen E url) as [content|]; [|by unfold_m; rewrite logged_logged].
  rewrite write_file_run. simpl.
  destruct (write_result (w_root w) dest content) as [e|root'];
    [by unfold_m; rewrite logged_logged|].
  destruct (truthy expected_sha256 && truthy file_name); [|done].
  unfold bind at 1. rewrite verify_checksum_run. simpl.
  destruct (digest_matches root' dest (default "" expected_sha256)); simpl; [done|].
  unfold_m. by rewrite !logged_logged.
Qed.

Lemma os_remove_run p E w :
  os_remove p E w =
  match remove_result (w_root w) p with
  | inr root' => (Ok tt, mkWorld root' (w_log w))
  | inl e => (Raise e, w)
  end.
Proof.
  unfold os_remove, remove_result. unfold_m.
  destruct (lookup_node p (w_root w)) as [[d|es]|]; try done.
  by destruct (del_node p (w_root w)).
Qed.

Lemma remove_result_gone root p root' :
  remove_result root p = inr root' → exists_at root' p = false.
Proof.
  unfold remove_result, exists_at. intros H.
  destruct (lookup_node p root) as [[d|es]|]; try done.
  destruct (del_node p root) as [r|] eqn:Hdel; simplify_eq.
  by rewrite (del_node_lookup _ _ _ Hdel).
Qed.

Lemma remove_result_file root p c :
  file_at root p = Some c → p ≠ [] → ∃ root', remove_result root p = inr root'.
Proof.
  unfold remove_result, file_at. intros H Hp.
  destruct (lookup_node p root) as [[d|es]|] eqn:Hl; try done.
  destruct (del_node_is_Some p root _ Hp Hl) as [root' ->]. eauto.
Qed.

Lemma prefix_app_snoc_not (p : path) (x : string) : ¬ (p ++ [x]) `prefix_of` p.
Proof.
  intros [k Hk]. apply (f_equal length) in Hk.
  rewrite !length_app in Hk. simpl in Hk. lia.
Qed.

(** Once a file has been removed, a file can be created in its place. *)
Lemma remove_result_then_write root dest old :
  dest ≠ [] → file_at root dest = Some old →
  ∃ root1, remove_result root dest = inr root1 ∧
           exists_at root1 dest = false ∧
           is_dir root1 (dirname dest) = true.
Proof.
  intros Hdest Hfile.
  destruct (remove_result_file root dest old Hfile Hdest) as [root1 Hrm].
  exists root1. split; [done|]. split; [by eapply remove_result_gone|].
  destruct dest as [|x p _] using rev_ind; [done|].
  unfold dirname. rewrite removelast_last.
  unfold remove_result, file_at in *.
  destruct (lookup_node (p ++ [x]) root) as [[c|]|] eqn:Hl; try done.
  destruct (del_node (p ++ [x]) root) as [r|] eqn:Hdel; simplify_eq.
  apply is_dir_stat.
  rewrite (del_node_stat _ _ _ p Hdel) by apply prefix_app_snoc_not.
  by eapply os_stat_ancestor.
Qed.

Lemma download_file_run url dest expected_sha256 file_name E w :
  download_file url dest expected_sha256 file_name E w =
  download_result url dest expected_sha256 file_name E w.
Proof.
  unfold download_file, download_result, os_path_exists.
  unfold bind at 1. unfold bind at 1. unfold get_root at 1, ret at 1.
  destruct (exists_at (w_root w) dest); [|apply download_file_fetch_run].
  unfold bind at 1. rewrite print_run.
  destruct (truthy expected_sha256 && truthy file_name);
    [|apply download_file_fetch_run].
  unfold bind at 1. rewrite verify_checksum_run, !logged_root. cbv beta iota zeta.
  destruct (digest_matches (w_root w) dest (default "" expected_sha256));
    cbn [negb]; cbv beta iota.
  { unfold ret. by rewrite logged_logged. }
  rewrite bind_run, print_run, bind_run, os_remove_run.
  cbv zeta. rewrite !logged_logged, !logged_root.
  destruct (remove_result (w_root w) dest) as [e|root']; [done|].
  apply download_file_fetch_run.
Qed.

Lemma truthy_Some s : s ≠ "" → truthy (Some s) = true.
Proof. intros Hs. simpl. by destruct (String.eqb_spec s ""). Qed.

(** A transfer that ends normally with a digest and a name given leaves a
    file with that digest. *)
Lemma fetch_result_ok url dest d n E w w' :
  d ≠ "" → n ≠ "" →
  fetch_result url dest (Some d) (Some n) E w = (Ok tt, w') →
  ∃ content, file_at (w_root w') dest = Some content ∧ Sha256.hexdigest content = d.
Proof.
  intros Hd Hn. unfold fetch_result.
  rewrite !truthy_Some by done. simpl.
  destruct (urlopen E url) as [content|]; [|done].
  destruct (write_result (w_root w) dest content) as [e|root']; [done|].
  destruct (digest_matches root' dest d) eqn:Hm; [|done].
  intros [= <-]. simpl. by apply digest_matches_true.
Qed.

(** A transfer whose content has another digest raises, and the content
    stays where it was written. *)
Lemma fetch_result_mismatch url dest d n E w content root' :
  d ≠ "" → n ≠ "" →
  urlopen E url = Some content → Sha256.hexdigest content ≠ d →
  write_result (w_root w) dest content = inr root' →
  ∃ log, fetch_result url dest (Some d) (Some n) E w =
           (Raise (ChecksumException n), mkWorld root' log) ∧
         file_at root' dest = Some content.
Proof.
  intros Hd Hn Hurl Hne Hw. unfold fetch_result.
  rewrite !truthy_Some, Hurl, Hw by done. simpl.
  pose proof (write_result_file _ _ _ _ Hw) as Hfile.
  assert (digest_matches root' dest d = false) as ->.
  { unfold digest_matches. rewrite Hfile. by apply String.eqb_neq. }
  eauto.
Qed.




(** A file that is already at the destination and has the expected digest is
    kept: nothing is transferred and the file system does not change. *)
Lemma download_file_cached url dest d n E w content :
  d ≠ "" → n ≠ "" →
  file_at (w_root w) dest = Some content → Sha256.hexdigest content = d →
  ∃ log, download_file url dest (Some d) (Some n) E w =
           (Ok tt, logged w log) ∧
         forallb is_print log = true.
Proof.
  intros Hd Hn Hfile Hdig. rewrite download_file_run. unfold download_result.
  rewrite !truthy_Some by done.
  assert (exists_at (w_root w) dest = true) as ->.
  { unfold exists_at, file_at in *. by destruct (lookup_node dest (w_root w)). }
  assert (digest_matches (w_root w) dest d = true) as Hm
    by (apply digest_matches_true; eauto).
  simpl. rewrite Hm, logged_logged. eexists; split; [done|].
  unfold verify_log. rewrite Hfile. simpl. by destruct (String.eqb _ _).
Qed.

(** Without a digest the URL is transferred whether or not the destination
    exists. *)
Lemma download_file_without_digest_transfers url dest file_name E w :
  UrlRetrieve url dest ∈ w_log (download_file url dest None file_name E w).2.
Proof.
  rewrite download_file_run. unfold download_result. simpl.
  assert (∀ w0, UrlRetrieve url dest ∈
                w_log (fetch_result url dest None file_name E w0).2) as Hfetch.
  { intros w0. unfold fetch_result. simpl.
    assert (UrlRetrieve url dest ∈
            w_log w0 ++ [Print (Downloading url dest); UrlRetrieve url dest]) as Hin.
    { rewrite elem_of_app, !elem_of_cons. auto. }
    destruct (urlopen E url) as [content|]; simpl;
      [|rewrite elem_of_app; by left].
    destruct (write_result (w_root w0) dest content); simpl; [|done].
    rewrite elem_of_app; by left. }
  destruct (exists_at (w_root w) dest); apply Hfetch.
Qed.

(** C3, the failing input.  The destination exists and no digest is given:
    the script prints that it skips the download, and then transfers the
    URL all the same and overwrites the file. *)
Theorem download_file_existing_without_digest :
  download_file (java_url demo_globals) demo_tar_path None None demo_env cached_world =
  (Ok tt,
   mkWorld
     (Dir [("work",
            Dir [("ghidra_install",
                  Dir [("Ghidra-OSX-Launcher-Script.scpt", File (bytes_of "applet"));
                       ("openjdk.tar.gz", File (bytes_of "jdk-archive"))])])])
     [Print (AlreadyExistsSkippingDownload demo_tar_path);
      Print (Downloading (java_url demo_globals) demo_tar_path);
      UrlRetrieve (java_url demo_globals) demo_tar_path]).
Proof. vm_compute. reflexivity. Qed.





(** The comparison is case-sensitive: the applet script verifies against
    its digest as [hexdigest] prints it, and not against the same digest in
    upper case. *)
Example verify_checksum_lower_case :
  (verify_checksum (applet_path demo_globals)
     "378202ab995d07abc66dff23466fe4770ce43dd77b5c674124967ef767db5cc3" "applet"
     demo_env demo_world).1 = Ok true.
Proof. vm_compute. reflexivity. Qed.

Example verify_checksum_upper_case :
  (verify_checksum (applet_path demo_globals)
     "378202AB995D07ABC66DFF23466FE4770CE43DD77B5C674124967EF767DB5CC3" "applet"
     demo_env demo_world).1 = Ok false.
Proof. vm_compute. reflexivity. Qed.

(** ** Child processes and the native build *)

Lemma subprocess_run_run argv cwd env E w :
  subprocess_run argv cwd env E w =
  match launch E argv cwd env (w_root w) with
  | Completed rc out err root' =>
      (Ok (rc, out, err), mkWorld root' (w_log w ++ [Run argv cwd env]))
  | LaunchError e => (Raise e, logged w [Run argv cwd env])
  end.
Proof.
  unfold subprocess_run. unfold_m. simpl.
  by destruct (launch E argv cwd env (w_root w)).
Qed.

Lemma add_execute_permissions_run file_path E w :
  add_execute_permissions file_path E w =
  add_execute_permissions_result file_path E w.
Proof.
  unfold add_execute_permissions, add_execute_permissions_result,
    try_except_CalledProcessError, subprocess_run_check.
  rewrite !bind_run, subprocess_run_run. cbv zeta.
  destruct (launch E _ None None (w_root w)) as [rc out err root'|e]; simpl.
  - by destruct (rc =? 0).
  - by destruct (is_CalledProcessError e).
Qed.

Lemma add_execute_permissions_never_exits file_path :
  never_exits (add_execute_permissions file_path).
Proof.
  intros E w c w'. rewrite add_execute_permissions_run.
  unfold add_execute_permissions_result.
  destruct (launch E _ None None (w_root w)) as [rc out err root'|e].
  - by destruct (rc =? 0).
  - by destruct (is_CalledProcessError e).
Qed.

(** A command that starts with [./] names a file of the working
    directory. *)
Lemma local_executable_gradlew args d :
  local_executable ("./gradlew" :: args) (Some d) = Some (d ++ ["gradlew"]).
Proof. reflexivity. Qed.




Lemma subprocess_run_never_exits argv cwd env : never_exits (subprocess_run argv cwd env).
Proof.
  intros E w c w'. rewrite subprocess_run_run.
  by destruct (launch E argv cwd env (w_root w)).
Qed.

(** C9.  [build_native_binaries] always returns a boolean: it neither raises
    nor exits.  The boolean is false when [support/gradle] is missing, when
    setting the execute permission on the wrapper raises, when the launch of
    the build raises and when the build ends with a status other than zero;
    it is true only when the build ends with status zero. *)
Theorem build_native_binaries_never_raises ghidra_dir jdk_home E w :
  let gradle_dir := ghidra_dir ++ ["support"; "gradle"] in
  let gradlew_path := gradle_dir ++ ["gradlew"] in
  let w_a := logged w [Print BuildingNativeBinaries; Print (UsingJdk jdk_home)] in
  let gradle :=
    subprocess_run ["./gradlew"; "buildNatives"] (Some gradle_dir)
      (Some (build_env (environ E) jdk_home)) in
  ∃ b w',
    build_native_binaries ghidra_dir jdk_home E w = (Ok b, w') ∧
    (exists_at (w_root w) gradle_dir = false → b = false) ∧
    (∀ e w_x,
       exists_at (w_root w) gradle_dir = true →
       exists_at (w_root w) gradlew_path = true →
       add_execute_permissions gradlew_path E w_a = (Raise e, w_x) →
       b = false) ∧
    (∀ w_b,
       exists_at (w_root w) gradle_dir = true →
       (if exists_at (w_root w) gradlew_path
        then add_execute_permissions gradlew_path E w_a = (Ok tt, w_b)
        else w_b = w_a) →
       match gradle E w_b with
       | (Ok result, _) => b = (result.1.1 =? 0)
       | (_, _) => b = false
       end).
Proof.
  intros gradle_dir gradlew_path w_a gradle.
  unfold build_native_binaries. cbv zeta. fold gradle_dir. fold gradlew_path.
  steps. destruct (exists_at (w_root w) gradle_dir) eqn:Hd; cbn [negb]; steps;
    [|eexists _, _; split; [done|]; by repeat split].
  rewrite !logged_logged. cbn [app]. fold w_a. fold gradle.
  destruct (exists_at (w_root w) gradlew_path) eqn:Hw; unfold when.
  - destruct (add_execute_permissions gradlew_path E w_a) as [[[]|e|c] w_b] eqn:Hchmod.
    + steps. fold gradle. destruct (gradle E w_b) as [[[[rc out] err]|e|c] w_c] eqn:Hrun.
      * cbn [fst snd]. destruct (rc =? 0) eqn:Hrc; steps;
          (eexists _, _; split; [done|]; split; [done|]; split; [by intros|];
           intros w_b' _ [= <-]; by rewrite Hrun).
      * steps. eexists _, _. split; [done|]. split; [done|]. split; [by intros|].
        intros w_b' _ [= <-]. by rewrite Hrun.
      * by apply subprocess_run_never_exits in Hrun.
    + steps. eexists _, _. split; [done|]. split; [done|]. split; [done|].
      intros w_b' _ [=].
    + by apply add_execute_permissions_never_exits in Hchmod.
  - steps. fold gradle. destruct (gradle E w_a) as [[[[rc out] err]|e|c] w_c] eqn:Hrun.
    + cbn [fst snd]. destruct (rc =? 0) eqn:Hrc; steps;
        (eexists _, _; split; [done|]; split; [done|]; split; [by intros|];
         intros w_b' _ ->; by rewrite Hrun).
    + steps. eexists _, _. split; [done|]. split; [done|]. split; [by intros|].
      intros w_b' _ ->. by rewrite Hrun.
    + by apply subprocess_run_never_exits in Hrun.
Qed.

Lemma build_native_binaries_never_exits ghidra_dir jdk_home :
  never_exits (build_native_binaries ghidra_dir jdk_home).
Proof.
  intros E w c w'. unfold build_native_binaries. cbv zeta. steps.
  destruct (exists_at (w_root w) _); cbn [negb]; steps; [|done].
  destruct (exists_at (w_root w) _); unfold when.
  - destruct (add_execute_permissions _ E _) as [[[]|e|c1] w1] eqn:Hchmod.
    + steps. destruct (subprocess_run _ _ _ E w1) as [[r|e|c2] w2] eqn:Hrun.
      * by destruct (r.1.1 =? 0); steps.
      * by steps.
      * by apply subprocess_run_never_exits in Hrun.
    + by steps.
    + by apply add_execute_permissions_never_exits in Hchmod.
  - steps. destruct (subprocess_run _ _ _ E _) as [[r|e|c2] w2] eqn:Hrun.
    + by destruct (r.1.1 =? 0); steps.
    + by steps.
    + by apply subprocess_run_never_exits in Hrun.
Qed.

(** ** Only [main] exits *)

Lemma never_exits_ret {A} (a : A) : never_exits (ret a).
Proof. by intros E w c w'. Qed.

Lemma never_exits_raise {A} e : never_exits (raise (A:=A) e).
Proof. by intros E w c w'. Qed.

Lemma never_exits_emit ev : never_exits (emit ev).
Proof. by intros E w c w'. Qed.

Lemma never_exits_print m : never_exits (print m).
Proof. by intros E w c w'. Qed.

Lemma never_exits_get_root : never_exits get_root.
Proof. by intros E w c w'. Qed.

Lemma never_exits_set_root r : never_exits (set_root r).
Proof. by intros E w c w'. Qed.

Lemma never_exits_ask : never_exits ask.
Proof. by intros E w c w'. Qed.

Lemma never_exits_bind {A B} (m : M A) (k : A → M B) :
  never_exits m → (∀ a, never_exits (k a)) → never_exits (bind m k).
Proof.
  intros Hm Hk E w c w'. rewrite bind_run.
  destruct (m E w) as [[a|e|c'] w1] eqn:Hrun; [apply Hk|done|].
  by apply Hm in Hrun.
Qed.

Lemma never_exits_try_except {A} (body : M A) (handler : exn → M A) :
  never_exits body → (∀ e, never_exits (handler e)) →
  never_exits (try_except body handler).
Proof.
  intros Hm Hh E w c w'. rewrite try_except_run.
  destruct (body E w) as [[a|e|c'] w1] eqn:Hrun; [done|apply Hh|].
  by apply Hm in Hrun.
Qed.

Lemma never_exits_commit r e : never_exits (commit r e).
Proof. destruct r; [apply never_exits_set_root|apply never_exits_raise]. Qed.

Create HintDb no_exit.
#[local] Hint Resolve never_exits_ret never_exits_raise never_exits_emit
  never_exits_print never_exits_get_root never_exits_set_root never_exits_ask
  never_exits_commit subprocess_run_never_exits
  add_execute_permissions_never_exits build_native_binaries_never_exits : no_exit.

(** Split a computation along its binds, handlers and case distinctions. *)
Ltac no_exit :=
  repeat first
    [ progress auto with no_exit
    | apply never_exits_bind; [|intros]
    | apply never_exits_try_except; [|intros]
    | match goal with
      | |- never_exits (when ?b _) => destruct b; unfold when
      | |- never_exits (match ?x with _ => _ end) => destruct x
      end ].

Lemma os_path_exists_never_exits p : never_exits (os_path_exists p).
Proof. unfold os_path_exists. no_exit. Qed.

Lemma read_file_never_exits p : never_exits (read_file p).
Proof. unfold read_file. no_exit. Qed.

Lemma write_file_never_exits p c : never_exits (write_file p c).
Proof. unfold write_file. no_exit. Qed.

Lemma os_remove_never_exits p : never_exits (os_remove p).
Proof. unfold os_remove. no_exit. Qed.

Lemma shutil_rmtree_never_exits p : never_exits (shutil_rmtree p).
Proof. unfold shutil_rmtree. no_exit. Qed.

Lemma os_makedirs_never_exits p : never_exits (os_makedirs p).
Proof. unfold os_makedirs. no_exit. Qed.

Lemma os_listdir_never_exits p : never_exits (os_listdir p).
Proof. unfold os_listdir. no_exit. Qed.

Lemma index0_never_exits names : never_exits (index0 names).
Proof. unfold index0. no_exit. Qed.

Lemma shutil_copytree_never_exits src dst : never_exits (shutil_copytree src dst).
Proof. unfold shutil_copytree. no_exit. Qed.

#[local] Hint Resolve os_path_exists_never_exits read_file_never_exits
  write_file_never_exits os_remove_never_exits shutil_rmtree_never_exits
  os_makedirs_never_exits os_listdir_never_exits index0_never_exits
  shutil_copytree_never_exits : no_exit.

Lemma urlretrieve_never_exits url dest : never_exits (urlretrieve url dest).
Proof. unfold urlretrieve. no_exit. Qed.

Lemma subprocess_run_check_never_exits argv : never_exits (subprocess_run_check argv).
Proof. unfold subprocess_run_check. no_exit. Qed.

Lemma tar_extractall_never_exits members dest : never_exits (tar_extractall members dest).
Proof.
  induction members as [|member rest IH]; simpl; [no_exit|].
  destruct (data_filter member dest); [no_exit|].
  unfold tar_extract_member. no_exit.
Qed.

Lemma zip_extractall_never_exits members dest : never_exits (zip_extractall members dest).
Proof.
  induction members as [|member rest IH]; simpl; [no_exit|].
  unfold zip_extract_member. no_exit.
Qed.

Lemma verify_checksum_never_exits p d n : never_exits (verify_checksum p d n).
Proof. intros E w c w'. by rewrite verify_checksum_run. Qed.

#[local] Hint Resolve urlretrieve_never_exits subprocess_run_check_never_exits
  tar_extractall_never_exits zip_extractall_never_exits
  verify_checksum_never_exits : no_exit.

Lemma download_file_never_exits url dest d n : never_exits (download_file url dest d n).
Proof. unfold download_file, download_file_fetch. no_exit. Qed.

Lemma extract_tar_gz_never_exits file_path dest_dir :
  never_exits (extract_tar_gz file_path dest_dir).
Proof. unfold extract_tar_gz. no_exit. Qed.

Lemma extract_zip_never_exits file_path dest_dir :
  never_exits (extract_zip file_path dest_dir).
Proof. unfold extract_zip. no_exit. Qed.

#[local] Hint Resolve download_file_never_exits extract_tar_gz_never_exits
  extract_zip_never_exits : no_exit.

Lemma install_first_entry_never_exits extract_dir final_app_dir :
  never_exits (install_first_entry extract_dir final_app_dir).
Proof. unfold install_first_entry. no_exit. Qed.

#[local] Hint Resolve install_first_entry_never_exits : no_exit.

Lemma main_try1_never_exits g : never_exits (main_try1 g).
Proof.
  unfold main_try1, step1_create_app, step2_openjdk, clean_and_extract. no_exit.
Qed.

Lemma main_try2_never_exits g : never_exits (main_try2 g).
Proof.
  unfold main_try2, step3_ghidra, step4_build_natives, step5_permissions,
    clean_and_extract.
  no_exit.
Qed.

(** ** The orchestrator *)

Lemma bind_raise {A B} (m : M A) (k : A → M B) E w e w' :
  m E w = (Raise e, w') → bind m k E w = (Raise e, w').
Proof. intros H. by rewrite bind_run, H. Qed.

Lemma bind_ok {A B} (m : M A) (k : A → M B) E w a w' :
  m E w = (Ok a, w') → bind m k E w = k a E w'.
Proof. intros H. by rewrite bind_run, H. Qed.

Lemma main_run g E w :
  main g E w =
  match main_try1 g E w with
  | (Ok _, w1) =>
      match main_try2 g E w1 with
      | (Raise e, w2) => (Exit None, logged w2 [Print (InstallationFailed e)])
      | r => r
      end
  | (Raise e, w1) => (Exit None, logged w1 [Print (InstallationFailed e)])
  | (Exit c, w1) => (Exit c, w1)
  end.
Proof.
  unfold main, installation_failed. rewrite bind_run, try_except_run.
  destruct (main_try1 g E w) as [[[]|e|c] w1]; [|by steps|done].
  rewrite try_except_run.
  destruct (main_try2 g E w1) as [[[]|e|c] w2]; [done|by steps|done].
Qed.

(** The last line of a successful [step5_permissions] is the confirmation. *)
Lemma step5_permissions_ok g E w w' :
  step5_permissions g E w = (Ok tt, w') →
  last (w_log w') = Some (Print InstallationCompleted).
Proof.
  unfold step5_permissions. rewrite bind_run.
  destruct (add_execute_permissions (launch_script_path g) E w) as [[[]|e|c] w1];
    [|done..].
  rewrite bind_run.
  destruct (add_execute_permissions (ghidra_run_path g) E w1) as [[[]|e|c] w2];
    [|done..].
  rewrite print_run. intros [= <-]. simpl. by rewrite last_snoc.
Qed.

Lemma add_execute_permissions_log file_path E w :
  ∃ log,
    w_log (add_execute_permissions file_path E w).2 =
    w_log w ++ Run ["chmod"; "+x"; path_str file_path] None None :: log.
Proof.
  rewrite add_execute_permissions_run. unfold add_execute_permissions_result.
  cbv zeta.
  match goal with
  | |- context [launch ?E ?a ?c ?v ?r] => destruct (launch E a c v r) as [rc ? ? ?|e]
  end.
  - destruct (rc =? 0); simpl; rewrite <-(assoc_L (++)); eauto.
  - destruct (is_CalledProcessError e); simpl; rewrite <-?(assoc_L (++)); eauto.
Qed.

(** [step5_permissions] starts with [chmod +x] on the launch script. *)
Lemma step5_permissions_starts g E w :
  ∃ log,
    w_log (step5_permissions g E w).2 =
    w_log w ++ Run ["chmod"; "+x"; path_str (launch_script_path g)] None None :: log.
Proof.
  unfold step5_permissions. rewrite bind_run.
  destruct (add_execute_permissions_log (launch_script_path g) E w) as [l1 Hl1].
  destruct (add_execute_permissions (launch_script_path g) E w)
    as [[[]|e|c] w1]; simpl in Hl1; [|by eauto..].
  rewrite bind_run.
  destruct (add_execute_permissions_log (ghidra_run_path g) E w1) as [l2 Hl2].
  destruct (add_execute_permissions (ghidra_run_path g) E w1)
    as [[[]|e|c] w2]; simpl in Hl2; simpl.
  - rewrite Hl2, Hl1, <-!(assoc_L (++)). simpl. eauto.
  - rewrite Hl2, Hl1, <-!(assoc_L (++)). simpl. eauto.
  - rewrite Hl2, Hl1, <-!(assoc_L (++)). simpl. eauto.
Qed.

(** C7.  When the native build fails, that is when
    [build_native_binaries] returns false, step 4 prints the warning and
    returns normally; the next thing the script does is [chmod +x] on the
    launch script; and when the permission phase succeeds, [main] returns
    normally with the confirmation as its last line. *)
Theorem native_build_failure_is_not_fatal g E w w1 w2 w3 :
  main_try1 g E w = (Ok tt, w1) →
  step3_ghidra g E w1 = (Ok tt, w2) →
  build_native_binaries (ghidra_final_app_dir g) (jdk_home g) E w2 = (Ok false, w3) →
  let w4 := logged w3 [Print NativeBuildWarning] in
  step4_build_natives g E w2 = (Ok tt, w4) ∧
  (∃ log,
     w_log (main g E w).2 =
     w_log w3 ++ Print NativeBuildWarning ::
       Run ["chmod"; "+x"; path_str (launch_script_path g)] None None :: log) ∧
  (∀ w5, step5_permissions g E w4 = (Ok tt, w5) →
     main g E w = (Ok tt, w5) ∧
     last (w_log w5) = Some (Print InstallationCompleted)).
Proof.
  intros H1 H3 Hb w4.
  assert (step4_build_natives g E w2 = (Ok tt, w4)) as H4.
  { unfold step4_build_natives. by rewrite bind_run, Hb. }
  assert (main_try2 g E w1 = step5_permissions g E w4) as H2.
  { unfold main_try2. by rewrite (bind_ok _ _ _ _ _ _ H3), (bind_ok _ _ _ _ _ _ H4). }
  split; [done|]. split.
  - destruct (step5_permissions_starts g E w4) as [log Hlog].
    rewrite main_run, H1, H2.
    destruct (step5_permissions g E w4) as [[[]|e|c] w5]; simpl in *.
    + exists log. by rewrite Hlog, <-(assoc_L (++)).
    + exists (log ++ [Print (InstallationFailed e)]).
      by rewrite Hlog, <-!(assoc_L (++)).
    + exists log. by rewrite Hlog, <-(assoc_L (++)).
  - intros w5 H5. rewrite main_run, H1, H2, H5. split; [done|].
    by eapply step5_permissions_ok.
Qed.

Lemma main_try2_ok g E w1 w2 :
  main_try2 g E w1 = (Ok tt, w2) →
  last (w_log w2) = Some (Print InstallationCompleted).
Proof.
  unfold main_try2. rewrite bind_run.
  destruct (step3_ghidra g E w1) as [[[]|e|c] wa]; [|done..].
  rewrite bind_run.
  destruct (step4_build_natives g E wa) as [[[]|e|c] wb]; [|done..].
  apply step5_permissions_ok.
Qed.

(** C4 (amended).  An exception raised in either [try] block of [main], and
    so a failure of the bundle creation, of a download or its final
    verification, of an extraction or of the permission phase, makes [main]
    print that the installation failed and leave through [exit()], without
    running what follows; [exit()] is called without a status, which gives
    the process status zero.  When nothing raises, [main] returns normally
    and its last line is the confirmation.  There is no third outcome. *)
Theorem main_fatal_failures_exit g E w :
  (∀ e w1, main_try1 g E w = (Raise e, w1) →
     main g E w = (Exit None, logged w1 [Print (InstallationFailed e)])) ∧
  (∀ w1 e w2, main_try1 g E w = (Ok tt, w1) → main_try2 g E w1 = (Raise e, w2) →
     main g E w = (Exit None, logged w2 [Print (InstallationFailed e)])) ∧
  (∀ w1 w2, main_try1 g E w = (Ok tt, w1) → main_try2 g E w1 = (Ok tt, w2) →
     main g E w = (Ok tt, w2) ∧
     last (w_log w2) = Some (Print InstallationCompleted)) ∧
  ((∃ e w', main g E w = (Exit None, w') ∧
            last (w_log w') = Some (Print (InstallationFailed e))) ∨
   (∃ w', main g E w = (Ok tt, w') ∧
          last (w_log w') = Some (Print InstallationCompleted))) ∧
  process_status (Exit (A:=unit) None) = 0 ∧
  (∀ e w', step1_create_app g E w = (Raise e, w') →
     main_try1 g E w = (Raise e, w')) ∧
  (∀ w0 e w', step1_create_app g E w = (Ok tt, w0) →
     step2_openjdk g E w0 = (Raise e, w') →
     main_try1 g E w = (Raise e, w')) ∧
  (∀ w0 e w',
     download_file (java_url g) (temp_dir g ++ ["openjdk.tar.gz"])
       (Some (java_expected_sha256 g)) (Some "OpenJDK") E w0 = (Raise e, w') →
     step2_openjdk g E w0 = (Raise e, w')) ∧
  (∀ w0 wa e w',
     download_file (java_url g) (temp_dir g ++ ["openjdk.tar.gz"])
       (Some (java_expected_sha256 g)) (Some "OpenJDK") E w0 = (Ok tt, wa) →
     clean_and_extract extract_tar_gz (temp_dir g ++ ["openjdk.tar.gz"]) (jdk_dir g)
       E wa = (Raise e, w') →
     step2_openjdk g E w0 = (Raise e, w')) ∧
  (∀ w1 e w', step3_ghidra g E w1 = (Raise e, w') →
     main_try2 g E w1 = (Raise e, w')) ∧
  (∀ w1 e w',
     download_file (ghidra_url g) (temp_dir g ++ ["ghidra.zip"])
       (Some (ghidra_expected_sha256 g)) (Some "Ghidra") E w1 = (Raise e, w') →
     step3_ghidra g E w1 = (Raise e, w')) ∧
  (∀ w1 wa e w',
     download_file (ghidra_url g) (temp_dir g ++ ["ghidra.zip"])
       (Some (ghidra_expected_sha256 g)) (Some "Ghidra") E w1 = (Ok tt, wa) →
     clean_and_extract extract_zip (temp_dir g ++ ["ghidra.zip"]) (ghidra_dir g)
       E wa = (Raise e, w') →
     step3_ghidra g E w1 = (Raise e, w')) ∧
  (∀ w1 w2 w3 e w', step3_ghidra g E w1 = (Ok tt, w2) →
     step4_build_natives g E w2 = (Ok tt, w3) →
     step5_permissions g E w3 = (Raise e, w') →
     main_try2 g E w1 = (Raise e, w')).
Proof.
  split; [|split; [|split; [|split; [|split]]]].
  - intros e w1 H1. by rewrite main_run, H1.
  - intros w1 e w2 H1 H2. by rewrite main_run, H1, H2.
  - intros w1 w2 H1 H2. rewrite main_run, H1, H2. split; [done|].
    by eapply main_try2_ok.
  - rewrite main_run.
    destruct (main_try1 g E w) as [[[]|e|c] w1] eqn:H1.
    + destruct (main_try2 g E w1) as [[[]|e|c] w2] eqn:H2.
      * right. eexists. split; [done|]. by eapply main_try2_ok.
      * left. eexists _, _. split; [done|]. simpl. by rewrite last_snoc.
      * by apply main_try2_never_exits in H2.
    + left. eexists _, _. split; [done|]. simpl. by rewrite last_snoc.
    + by apply main_try1_never_exits in H1.
  - done.
  - unfold main_try1, step2_openjdk, step3_ghidra, main_try2.
    repeat split; intros;
      repeat first [ erewrite bind_ok by eassumption
                   | erewrite bind_raise by eassumption ]; done.
Qed.

(** ** Extraction of a tar archive *)


Lemma removelast_prefix (l : path) : removelast l `prefix_of` l.
Proof.
  induction l as [|x [|y l] IH]; simpl; [done|apply prefix_nil|].
  by apply prefix_cons.
Qed.

Lemma removelast_app_prefix (l r : path) : r ≠ [] → l `prefix_of` removelast (l ++ r).
Proof.
  intros Hr. induction l as [|x l IH]; simpl; [apply prefix_nil|].
  destruct (l ++ r) eqn:Happ.
  - by destruct l, r.
  - by apply prefix_cons.
Qed.

(** The directory of a path below [dest] is below [dest] or is the parent of
    [dest]. *)
Lemma dirname_comparable (dest t : path) :
  dest `prefix_of` t → dest `prefix_of` dirname t ∨ dirname t `prefix_of` dest.
Proof.
  intros [r ->]. unfold dirname. destruct r as [|x r].
  - right. rewrite app_nil_r. apply removelast_prefix.
  - left. by apply removelast_app_prefix.
Qed.

(** Directories that exist above [dest] stay, whatever is created on the way
    to a path that is comparable with [dest]. *)
Lemma mkdirs_same_outside dest t root root' :
  is_dir root dest = true →
  dest `prefix_of` t ∨ t `prefix_of` dest →
  mkdirs t root = Some root' →
  same_outside dest root root' ∧ is_dir root' dest = true.
Proof.
  intros Hdir Hcmp Hmk. split.
  - intros q Hq. rewrite (mkdirs_stat _ _ _ q Hmk).
    destruct (decide (q `prefix_of` t)) as [Hqt|]; [|done].
    assert (q `prefix_of` dest) as [r ->].
    { destruct Hcmp as [Hdt|Htd]; [|by etrans].
      destruct (prefix_weak_total _ _ _ Hqt Hdt); done. }
    symmetry. unfold is_dir in Hdir.
    destruct (lookup_node (q ++ r) root) as [[?|es]|] eqn:Hl; try done.
    eapply os_stat_ancestor; [done|].
    intros ->. apply Hq. by rewrite app_nil_r.
  - apply is_dir_stat. rewrite (mkdirs_stat _ _ _ dest Hmk).
    destruct (decide (dest `prefix_of` t)); [done|]. by apply is_dir_stat.
Qed.

Lemma write_same_outside dest t root root' c :
  is_dir root dest = true → dest `prefix_of` t →
  write_result root t c = inr root' →
  same_outside dest root root' ∧ is_dir root' dest = true.
Proof.
  intros Hdir Hdt Hw. split.
  - intros q Hq. eapply write_result_stat; [done|].
    intros Htq. apply Hq. by etrans.
  - apply is_dir_stat. rewrite (write_result_stat _ _ _ _ dest Hw).
    + by apply is_dir_stat.
    + intros Htd. assert (t = dest) as -> by by apply (anti_symm prefix).
      unfold write_result, is_dir in *.
      by destruct (lookup_node dest root) as [[?|?]|].
Qed.

Lemma same_outside_refl dest root : same_outside dest root root.
Proof. by intros q Hq. Qed.

Lemma same_outside_trans dest r1 r2 r3 :
  same_outside dest r1 r2 → same_outside dest r2 r3 → same_outside dest r1 r3.
Proof. intros H12 H23 q Hq. by rewrite H23, H12. Qed.

Lemma os_makedirs_run p E w :
  os_makedirs p E w =
  match mkdirs p (w_root w) with
  | Some root' => (Ok tt, mkWorld root' (w_log w))
  | None => (Raise (FileExistsError p), w)
  end.
Proof. unfold os_makedirs. unfold_m. by destruct (mkdirs p (w_root w)). Qed.

Lemma data_filter_inr member dest t :
  data_filter member dest = inr t →
  t = resolve dest (lstrip_slash (tar_name member)) ∧ dest `prefix_of` t.
Proof.
  unfold data_filter, within.
  destruct (bool_decide_reflect
              (dest `prefix_of` resolve dest (lstrip_slash (tar_name member))));
    simpl; [|done].
  destruct (tar_type_of member); intros; by simplify_eq.
Qed.

Lemma data_filter_outside member dest :
  ¬ dest `prefix_of` resolve dest (lstrip_slash (tar_name member)) →
  data_filter member dest = inl (OutsideDestinationError (tar_name member)).
Proof.
  intros H. unfold data_filter, within. by rewrite bool_decide_false.
Qed.

Lemma tar_extract_member_same_outside member dest t E w :
  is_dir (w_root w) dest = true → dest `prefix_of` t →
  let w' := (tar_extract_member member t E w).2 in
  same_outside dest (w_root w) (w_root w') ∧ is_dir (w_root w') dest = true.
Proof.
  intros Hdir Hdt. unfold tar_extract_member.
  assert (∀ p, dest `prefix_of` p ∨ p `prefix_of` dest →
            let w1 := (os_makedirs p E w).2 in
            same_outside dest (w_root w) (w_root w1) ∧ is_dir (w_root w1) dest = true)
    as Hmk.
  { intros p Hp. rewrite os_makedirs_run.
    destruct (mkdirs p (w_root w)) as [root'|] eqn:Hm; simpl.
    - by eapply mkdirs_same_outside.
    - split; [apply same_outside_refl|done]. }
  assert (let w' := (bind (os_makedirs (dirname t))
                       (fun _ => write_file t (tar_data member)) E w).2 in
          same_outside dest (w_root w) (w_root w') ∧ is_dir (w_root w') dest = true)
    as Hreg.
  { rewrite bind_run.
    specialize (Hmk (dirname t) (dirname_comparable _ _ Hdt)).
    destruct (os_makedirs (dirname t) E w) as [[[]|e|c] w1]; [|done..].
    simpl in Hmk. destruct Hmk as [Hs1 Hd1].
    rewrite write_file_run.
    destruct (write_result (w_root w1) t (tar_data member)) as [e|root'] eqn:Hw;
      simpl; [done|].
    destruct (write_same_outside dest t _ _ _ Hd1 Hdt Hw) as [Hs2 Hd2].
    split; [by eapply same_outside_trans|done]. }
  destruct (tar_type_of member); [done| |done].
  apply Hmk. by left.
Qed.

(** Whatever [extractall] does, it does below the destination. *)
Lemma tar_extractall_same_outside members dest E w :
  is_dir (w_root w) dest = true →
  same_outside dest (w_root w) (w_root (tar_extractall members dest E w).2).
Proof.
  revert w. induction members as [|member rest IH]; intros w Hdir; simpl.
  { apply same_outside_refl. }
  destruct (data_filter member dest) as [e|t] eqn:Hf; [apply same_outside_refl|].
  apply data_filter_inr in Hf as [_ Hdt].
  destruct (tar_extract_member_same_outside member dest t E w Hdir Hdt) as [Hs Hd].
  rewrite bind_run.
  destruct (tar_extract_member member t E w) as [[[]|e|c] w1]; simpl in *; [|done..].
  eapply same_outside_trans; [done|]. by apply IH.
Qed.

(** A rejected member ends the extraction: what comes before it is
    extracted as if the archive ended there, what comes after is not
    looked at. *)
Lemma tar_extractall_rejected before bad after dest e E w :
  data_filter bad dest = inl e →
  tar_extractall (before ++ bad :: after) dest E w =
  match tar_extractall before dest E w with
  | (Ok _, w1) => (Raise e, w1)
  | r => r
  end.
Proof.
  intros Hbad. revert w. induction before as [|member rest IH]; intros w; simpl.
  { by rewrite Hbad. }
  destruct (data_filter member dest) as [e'|t]; [done|].
  rewrite !bind_run.
  destruct (tar_extract_member member t E w) as [[[]|e'|c] w1]; [apply IH|done..].
Qed.

Lemma extract_tar_gz_run file_path dest_dir E w :
  extract_tar_gz file_path dest_dir E w =
  let w0 := logged w [Print (Extracting file_path dest_dir)] in
  let fail e := (Raise e, logged w0 [Print (ErrorExtracting file_path e)]) in
  match file_at (w_root w) file_path with
  | Some content =>
      match untar_gz E content with
      | Some members =>
          match tar_extractall members dest_dir E w0 with
          | (Raise e, w') => (Raise e, logged w' [Print (ErrorExtracting file_path e)])
          | r => r
          end
      | None => fail ReadError
      end
  | None => fail (read_error (w_root w) file_path)
  end.
Proof.
  unfold extract_tar_gz, read_file, file_at, read_error. steps.
  unfold get_root at 1. cbv beta iota.
  rewrite logged_root.
  destruct (lookup_node file_path (w_root w)) as [[content|es]|]; steps; try done.
  destruct (untar_gz E content) as [members|]; steps; [|done].
  by destruct (tar_extractall members dest_dir E _) as [[[]|e|c] w1]; steps.
Qed.




(** The harmless entry first, then the one that escapes: the first is
    extracted, the second is rejected and written nowhere. *)
Example extract_tar_gz_tool_then_evil :
  let r := extract_tar_gz ["work"; "mixed.tar.gz"] ["work"; "out"]
             archive_env archive_world in
  r.1 = Raise (OutsideDestinationError "../../etc/evil") ∧
  file_at (w_root r.2) ["work"; "out"; "payload"; "bin"; "tool"]
    = Some (bytes_of "tool") ∧
  file_at (w_root r.2) ["etc"; "evil"] = None ∧
  exists_at (w_root r.2) ["etc"] = false.
Proof. vm_compute. done. Qed.

(** ** Installing what was extracted *)

Lemma os_listdir_run p E w :
  os_listdir p E w =
  match lookup_node p (w_root w) with
  | Some (Dir es) => (Ok (es.*1), w)
  | Some (File _) => (Raise (NotADirectoryError p), w)
  | None => (Raise (FileNotFoundError p), w)
  end.
Proof.
  unfold os_listdir. steps. unfold get_root. cbv beta iota.
  by destruct (lookup_node p (w_root w)) as [[?|?]|].
Qed.

Lemma names_at_lookup root p names :
  names_at root p = Some names →
  ∃ es, lookup_node p root = Some (Dir es) ∧ es.*1 = names.
Proof.
  unfold names_at. destruct (lookup_node p root) as [[?|es]|]; [done| |done].
  intros [= <-]. eauto.
Qed.

(** After the copy the destination holds the tree of the source. *)
Lemma shutil_copytree_ok src dst E w w' :
  shutil_copytree src dst E w = (Ok tt, w') →
  ∃ es, lookup_node src (w_root w) = Some (Dir es) ∧
        lookup_node dst (w_root w') = Some (Dir es).
Proof.
  unfold shutil_copytree. steps. unfold get_root. cbv beta iota.
  destruct (lookup_node src (w_root w)) as [[?|es]|]; [done| |done].
  destruct (exists_at (w_root w) dst); [done|].
  destruct (mkdirs dst (w_root w)) as [root1|]; [|done]. simpl.
  destruct (put_node dst (Dir es) root1) as [root2|] eqn:Hput; [|done].
  intros [= <-]. exists es. split; [done|]. by eapply put_node_lookup.
Qed.

(** Removing the old tree at the destination does not touch a source that
    lies elsewhere. *)
Lemma shutil_rmtree_ok p q E w w' :
  shutil_rmtree p E w = (Ok tt, w') →
  ¬ p `prefix_of` q → ¬ q `prefix_of` p →
  lookup_node q (w_root w') = lookup_node q (w_root w).
Proof.
  unfold shutil_rmtree. steps. unfold get_root. cbv beta iota.
  destruct (lookup_node p (w_root w)) as [[?|es]|]; [done| |done].
  destruct (del_node p (w_root w)) as [root1|] eqn:Hdel; [|done].
  intros [= <-] Hpq Hqp. by eapply del_node_lookup_ne.
Qed.

Lemma install_first_entry_empty extract_dir final_app_dir E w :
  names_at (w_root w) extract_dir = Some [] →
  install_first_entry extract_dir final_app_dir E w = (Raise IndexError, w).
Proof.
  intros (es & Hl & Hes)%names_at_lookup. unfold install_first_entry.
  rewrite bind_run, os_listdir_run, Hl, Hes. unfold index0. by steps.
Qed.

Lemma install_first_entry_first extract_dir final_app_dir first rest E w w' :
  names_at (w_root w) extract_dir = Some (first :: rest) →
  ¬ final_app_dir `prefix_of` extract_dir ++ [first] →
  ¬ extract_dir ++ [first] `prefix_of` final_app_dir →
  install_first_entry extract_dir final_app_dir E w = (Ok tt, w') →
  ∀ q, lookup_node (final_app_dir ++ q) (w_root w') =
       lookup_node (extract_dir ++ first :: q) (w_root w).
Proof.
  intros (es & Hl & Hes)%names_at_lookup Hfs Hsf. unfold install_first_entry.
  rewrite bind_run, os_listdir_run, Hl, Hes. unfold index0. steps.
  destruct (when (exists_at (w_root w) final_app_dir)
              (shutil_rmtree final_app_dir) E w) as [[[]|e|c] w1] eqn:Hrm;
    [|done..].
  assert (lookup_node (extract_dir ++ [first]) (w_root w1) =
          lookup_node (extract_dir ++ [first]) (w_root w)) as Hsame.
  { unfold when in Hrm. destruct (exists_at (w_root w) final_app_dir).
    - by eapply shutil_rmtree_ok.
    - by injection Hrm as <-. }
  intros (es' & Hsrc & Hdst)%shutil_copytree_ok q.
  rewrite lookup_node_app, Hdst. simpl.
  replace (extract_dir ++ first :: q) with ((extract_dir ++ [first]) ++ q)
    by by rewrite <-(assoc_L (++)).
  by rewrite lookup_node_app, <-Hsame, Hsrc.
Qed.

(** In [main] the extracted tree and its place in the bundle lie apart. *)
Lemma extracted_and_final_apart g first :
  (¬ jdk_final_app_dir g `prefix_of` jdk_dir g ++ [first] ∧
   ¬ jdk_dir g ++ [first] `prefix_of` jdk_final_app_dir g) ∧
  (¬ ghidra_final_app_dir g `prefix_of` ghidra_dir g ++ [first] ∧
   ¬ ghidra_dir g ++ [first] `prefix_of` ghidra_final_app_dir g).
Proof.
  unfold jdk_final_app_dir, jdk_dir, ghidra_final_app_dir, ghidra_dir, app_dir.
  rewrite <-!(assoc_L (++)). simpl.
  repeat split; intros H%prefix_app_inv%prefix_cons_inv_1; discriminate H.
Qed.

(** C10.  [install_first_entry], the code that follows both extractions in
    [main], raises [IndexError] when the extraction directory is empty, and
    otherwise copies the first name of the listing, and only that, to the
    bundle: afterwards the place in the bundle holds exactly the tree that
    was below that first name, whatever other names the listing had.  The
    paths [main] passes satisfy the side condition.  An empty extraction
    directory ends [main] with the failure message and [exit()]. *)
Theorem install_first_entry_only extract_dir final_app_dir E w :
  (names_at (w_root w) extract_dir = Some [] →
   install_first_entry extract_dir final_app_dir E w = (Raise IndexError, w)) ∧
  (∀ first rest w',
     names_at (w_root w) extract_dir = Some (first :: rest) →
     ¬ final_app_dir `prefix_of` extract_dir ++ [first] →
     ¬ extract_dir ++ [first] `prefix_of` final_app_dir →
     install_first_entry extract_dir final_app_dir E w = (Ok tt, w') →
     ∀ q, lookup_node (final_app_dir ++ q) (w_root w') =
          lookup_node (extract_dir ++ first :: q) (w_root w)) ∧
  (∀ g first,
     (¬ jdk_final_app_dir g `prefix_of` jdk_dir g ++ [first] ∧
      ¬ jdk_dir g ++ [first] `prefix_of` jdk_final_app_dir g) ∧
     (¬ ghidra_final_app_dir g `prefix_of` ghidra_dir g ++ [first] ∧
      ¬ ghidra_dir g ++ [first] `prefix_of` ghidra_final_app_dir g)) ∧
  (∀ g w0 wa wb,
     step1_create_app g E w = (Ok tt, w0) →
     download_file (java_url g) (temp_dir g ++ ["openjdk.tar.gz"])
       (Some (java_expected_sha256 g)) (Some "OpenJDK") E w0 = (Ok tt, wa) →
     clean_and_extract extract_tar_gz (temp_dir g ++ ["openjdk.tar.gz"]) (jdk_dir g)
       E wa = (Ok tt, wb) →
     names_at (w_root wb) (jdk_dir g) = Some [] →
     main g E w = (Exit None, logged wb [Print (InstallationFailed IndexError)])) ∧
  (∀ g w1 wa wb,
     main_try1 g E w = (Ok tt, w1) →
     download_file (ghidra_url g) (temp_dir g ++ ["ghidra.zip"])
       (Some (ghidra_expected_sha256 g)) (Some "Ghidra") E w1 = (Ok tt, wa) →
     clean_and_extract extract_zip (temp_dir g ++ ["ghidra.zip"]) (ghidra_dir g)
       E wa = (Ok tt, wb) →
     names_at (w_root wb) (ghidra_dir g) = Some [] →
     main g E w = (Exit None, logged wb [Print (InstallationFailed IndexError)])).
Proof.
  split; [apply install_first_entry_empty|].
  split; [intros; by eapply install_first_entry_first|].
  split; [apply extracted_and_final_apart|]. split.
  - intros g w0 wa wb H1 Hd Hx Hn. rewrite main_run.
    unfold main_try1, step2_openjdk.
    rewrite (bind_ok _ _ _ _ _ _ H1), (bind_ok _ _ _ _ _ _ Hd),
      (bind_ok _ _ _ _ _ _ Hx).
    by rewrite install_first_entry_empty.
  - intros g w1 wa wb H1 Hd Hx Hn. rewrite main_run, H1.
    unfold main_try2, step3_ghidra.
    rewrite bind_run, (bind_ok _ _ _ _ _ _ Hd), (bind_ok _ _ _ _ _ _ Hx).
    by rewrite install_first_entry_empty.
Qed.

(** ** Runs of the script *)

(** A complete run: the bundle is created, both archives are downloaded,
    verified and unpacked, the native build is skipped with a warning
    because the release brings no Gradle directory, and the launchers are
    made executable. *)
Example main_demo_run :
  let r := main demo_globals demo_env demo_world in
  r.1 = Ok tt ∧
  last (w_log r.2) = Some (Print InstallationCompleted) ∧
  file_at (w_root r.2) (jdk_home demo_globals ++ ["bin"; "java"]) = Some (bytes_of "java") ∧
  file_at (w_root r.2) (launch_script_path demo_globals) = Some (bytes_of "launch") ∧
  file_at (w_root r.2) (ghidra_run_path demo_globals) = Some (bytes_of "run") ∧
  filter (fun ev => is_url_retrieve ev = true) (w_log r.2) =
    [UrlRetrieve (java_url demo_globals) demo_tar_path;
     UrlRetrieve (ghidra_url demo_globals) (temp_dir demo_globals ++ ["ghidra.zip"])].
Proof. vm_compute. done. Qed.

(** Running the script again on what the first run left transfers nothing:
    both archives are found and verify. *)
Example main_demo_rerun :
  let w1 := (main demo_globals demo_env demo_world).2 in
  let r := main demo_globals offline_env (mkWorld (w_root w1) []) in
  r.1 = Ok tt ∧
  filter (fun ev => is_url_retrieve ev = true) (w_log r.2) = [] ∧
  file_at (w_root r.2) (launch_script_path demo_globals) = Some (bytes_of "launch").
Proof. vm_compute. done. Qed.

(** A Gradle build that ends with status 1 is reported, warned about, and
    the installation completes. *)
Example main_gradle_failure_run :
  let r := main demo_globals gradle_env demo_world in
  r.1 = Ok tt ∧
  filter (fun ev => is_run ev = true) (w_log r.2) =
    [Run ["osacompile"; "-o"; path_str (app_dir demo_globals);
          path_str (applet_path demo_globals)] None None;
     Run ["chmod"; "+x";
          path_str (ghidra_final_app_dir demo_globals ++ ["support"; "gradle"; "gradlew"])]
         None None;
     Run ["./gradlew"; "buildNatives"]
         (Some (ghidra_final_app_dir demo_globals ++ ["support"; "gradle"]))
         (Some [("HOME", "/Users/me");
                ("PATH", "/work/ghidra_install/Ghidra.app/Contents/Resources/jdk/Contents/Home/bin:/usr/bin");
                ("JAVA_HOME", "/work/ghidra_install/Ghidra.app/Contents/Resources/jdk/Contents/Home")]);
     Run ["chmod"; "+x"; path_str (launch_script_path demo_globals)] None None;
     Run ["chmod"; "+x"; path_str (ghidra_run_path demo_globals)] None None] ∧
  drop 17 (w_log r.2) =
    [Print (GradleBuildFailed 1); Print (GradleStdout ""); Print (GradleStderr "BUILD FAILED");
     Print NativeBuildWarning;
     Run ["chmod"; "+x"; path_str (launch_script_path demo_globals)] None None;
     Print (AddedExecutePermissions (launch_script_path demo_globals));
     Run ["chmod"; "+x"; path_str (ghidra_run_path demo_globals)] None None;
     Print (AddedExecutePermissions (ghidra_run_path demo_globals));
     Print InstallationCompleted].
Proof. vm_compute. done. Qed.

(** The empty JDK archive: nothing is extracted, the listing is empty, and
    the index access ends the installation. *)
Example main_empty_archive_run :
  let r := main empty_globals empty_env demo_world in
  r.1 = Exit None ∧
  last (w_log r.2) = Some (Print (InstallationFailed IndexError)) ∧
  names_at (w_root r.2) (jdk_dir empty_globals) = Some [].
Proof. vm_compute. done. Qed.

Lemma main_fatal_failures_exit_witness :
  main mismatch_globals demo_env demo_world =
    (Exit None,
     logged (main_try1 mismatch_globals demo_env demo_world).2
       [Print (InstallationFailed (ChecksumException "OpenJDK"))]) ∧
  main demo_globals demo_env demo_world =
    (Ok tt, (main demo_globals demo_env demo_world).2) ∧
  last (w_log (main demo_globals demo_env demo_world).2) =
    Some (Print InstallationCompleted).
Proof.
  split.
  - apply (proj1 (main_fatal_failures_exit mismatch_globals demo_env demo_world)).
    vm_compute. reflexivity.
  - apply (proj1 (proj2 (proj2 (main_fatal_failures_exit demo_globals demo_env demo_world)))
             (main_try1 demo_globals demo_env demo_world).2).
    + vm_compute. reflexivity.
    + vm_compute. reflexivity.
Defined.

(** C4 as stated fails on the exit status: the JDK that is downloaded does
    not have the expected digest, the final verification fails, [main]
    prints the failure and calls [exit()], and the process status is zero. *)
Lemma main_checksum_failure_exits_with_status_zero :
  let r := main mismatch_globals demo_env demo_world in
  r.1 = Exit None ∧
  last (w_log r.2) = Some (Print (InstallationFailed (ChecksumException "OpenJDK"))) ∧
  process_status r.1 = 0.
Proof. vm_compute. done. Qed.

Lemma native_build_failure_is_not_fatal_witness :
  main demo_globals demo_env demo_world =
    (Ok tt, (main demo_globals demo_env demo_world).2) ∧
  last (w_log (main demo_globals demo_env demo_world).2) =
    Some (Print InstallationCompleted).
Proof.
  apply (proj2 (proj2
           (native_build_failure_is_not_fatal demo_globals demo_env demo_world
              (main_try1 demo_globals demo_env demo_world).2
              (step3_ghidra demo_globals demo_env
                 (main_try1 demo_globals demo_env demo_world).2).2
              (build_native_binaries (ghidra_final_app_dir demo_globals)
                 (jdk_home demo_globals) demo_env
                 (step3_ghidra demo_globals demo_env
                    (main_try1 demo_globals demo_env demo_world).2).2).2
              ltac:(vm_compute; reflexivity)
              ltac:(vm_compute; reflexivity)
              ltac:(vm_compute; reflexivity)))).
  vm_compute. reflexivity.
Defined.

Lemma build_native_binaries_never_raises_witness :
  ∃ b w',
    build_native_binaries (ghidra_final_app_dir demo_globals ) (jdk_home demo_globals)
      gradle_env (step3_ghidra demo_globals gradle_env
                    (main_try1 demo_globals gradle_env demo_world).2).2 = (Ok b, w').
Proof.
  destruct (build_native_binaries_never_raises
              (ghidra_final_app_dir demo_globals) (jdk_home demo_globals) gradle_env
              (step3_ghidra demo_globals gradle_env
                 (main_try1 demo_globals gradle_env demo_world).2).2)
    as (b & w' & H & _).
  exists b, w'. exact H.
Defined.

Lemma install_first_entry_only_witness :
  install_first_entry ["work"; "out"] ["work"; "bundle"] archive_env archive_world =
    (Raise IndexError, archive_world) ∧
  ∀ q,
    lookup_node (["work"; "bundle"] ++ q)
      (w_root (install_first_entry ["work"; "ex"] ["work"; "bundle"]
                 demo_env two_entries_world).2) =
    lookup_node (["work"; "ex"] ++ "first" :: q) (w_root two_entries_world).
Proof.
  split.
  - apply (proj1 (install_first_entry_only ["work"; "out"] ["work"; "bundle"]
                    archive_env archive_world)).
    vm_compute. reflexivity.
  - apply (proj1 (proj2 (install_first_entry_only ["work"; "ex"] ["work"; "bundle"]
                           demo_env two_entries_world))
             "first" ["second"]).
    + vm_compute. reflexivity.
    + intros [k Hk]. discriminate Hk.
    + intros [k Hk]. discriminate Hk.
    + vm_compute. reflexivity.
Defined.

(** Of the two extracted entries only the first reaches the bundle. *)
Example install_first_entry_ignores_second :
  let r := install_first_entry ["work"; "ex"] ["work"; "bundle"]
             demo_env two_entries_world in
  r.1 = Ok tt ∧
  file_at (w_root r.2) ["work"; "bundle"; "bin"; "java"] = Some (bytes_of "java") ∧
  names_at (w_root r.2) ["work"; "bundle"] = Some ["bin"].
Proof. vm_compute. done. Qed.

(** ** What the script shows to the outside *)

Lemma emits_mono (P Q : event → Prop) E {A} (m : M A) :
  (∀ ev, P ev → Q ev) → emits P E m → emits Q E m.
Proof.
  intros HPQ Hm w. destruct (Hm w) as (evs & Hlog & Hevs).
  exists evs. split; [done|]. by eapply Forall_impl.
Qed.

Lemma emits_ret P E {A} (a : A) : emits P E (ret a).
Proof. intros w. exists []. by rewrite app_nil_r. Qed.

Lemma emits_raise P E {A} e : emits P E (raise (A:=A) e).
Proof. intros w. exists []. by rewrite app_nil_r. Qed.

Lemma emits_get_root P E : emits P E get_root.
Proof. intros w. exists []. by rewrite app_nil_r. Qed.

Lemma emits_set_root P E r : emits P E (set_root r).
Proof. intros w. exists []. simpl. by rewrite app_nil_r. Qed.

Lemma emits_commit P E r e : emits P E (commit r e).
Proof. destruct r; [apply emits_set_root|apply emits_raise]. Qed.

Lemma emits_emit (P : event → Prop) E ev : P ev → emits P E (emit ev).
Proof. intros Hev w. exists [ev]. split; [done|]. by constructor. Qed.

Lemma emits_print (P : event → Prop) E m : P (Print m) → emits P E (print m).
Proof. apply emits_emit. Qed.

Lemma emits_bind P E {A B} (m : M A) (k : A → M B) :
  emits P E m → (∀ a, emits P E (k a)) → emits P E (bind m k).
Proof.
  intros Hm Hk w. rewrite bind_run.
  destruct (Hm w) as (evs1 & Hlog1 & Hevs1).
  destruct (m E w) as [[a|e|c] w1]; simpl in Hlog1; [|by eauto..].
  destruct (Hk a w1) as (evs2 & Hlog2 & Hevs2).
  exists (evs1 ++ evs2). split.
  - by rewrite Hlog2, Hlog1, <-(assoc_L (++)).
  - by apply Forall_app.
Qed.

(** [ask] hands the continuation the environment of the run. *)
Lemma emits_ask_bind P E {B} (k : Env → M B) :
  emits P E (k E) → emits P E (bind ask k).
Proof. intros Hk w. rewrite bind_run, ask_run. apply Hk. Qed.

Lemma emits_try_except P E {A} (body : M A) (handler : exn → M A) :
  emits P E body → (∀ e, emits P E (handler e)) → emits P E (try_except body handler).
Proof.
  intros Hm Hh w. rewrite try_except_run.
  destruct (Hm w) as (evs1 & Hlog1 & Hevs1).
  destruct (body E w) as [[a|e|c] w1]; simpl in Hlog1; [by eauto| |by eauto].
  destruct (Hh e w1) as (evs2 & Hlog2 & Hevs2).
  exists (evs1 ++ evs2). split.
  - by rewrite Hlog2, Hlog1, <-(assoc_L (++)).
  - by apply Forall_app.
Qed.

Lemma emits_try_except_CalledProcessError P E {A} (body : M A) (handler : exn → M A) :
  emits P E body → (∀ e, emits P E (handler e)) →
  emits P E (try_except_CalledProcessError body handler).
Proof.
  intros Hm Hh w. unfold try_except_CalledProcessError.
  destruct (Hm w) as (evs1 & Hlog1 & Hevs1).
  destruct (body E w) as [[a|e|c] w1]; simpl in Hlog1; [by eauto| |by eauto].
  destruct (is_CalledProcessError e); [|by eauto].
  destruct (Hh e w1) as (evs2 & Hlog2 & Hevs2).
  exists (evs1 ++ evs2). split.
  - by rewrite Hlog2, Hlog1, <-(assoc_L (++)).
  - by apply Forall_app.
Qed.

Create HintDb emits.
#[local] Hint Resolve emits_ret emits_raise emits_get_root emits_set_root
  emits_commit : emits.

(** Split a computation along its binds, handlers and case distinctions;
    what is left are the conditions on the events it emits. *)
Ltac emits_split :=
  repeat first
    [ progress auto with emits
    | match goal with
      | |- emits _ _ (bind ask _) => apply emits_ask_bind
      | |- emits _ _ (bind _ _) => apply emits_bind; [|intros]
      | |- emits _ _ (try_except _ _) => apply emits_try_except; [|intros]
      | |- emits _ _ (try_except_CalledProcessError _ _) =>
          apply emits_try_except_CalledProcessError; [|intros]
      | |- emits _ _ (print _) => apply emits_print; simpl; solve [auto]
      | |- emits _ _ (emit _) => apply emits_emit; simpl; solve [auto 10]
      | |- emits _ _ (when ?b _) => destruct b; unfold when
      | |- emits _ _ (match ?x with _ => _ end) => destruct x
      end ].

Lemma emits_os_path_exists P E p : emits P E (os_path_exists p).
Proof. unfold os_path_exists. emits_split. Qed.

Lemma emits_read_file P E p : emits P E (read_file p).
Proof. unfold read_file. emits_split. Qed.

Lemma emits_write_file P E p c : emits P E (write_file p c).
Proof. unfold write_file. emits_split. Qed.

Lemma emits_os_remove P E p : emits P E (os_remove p).
Proof. unfold os_remove. emits_split. Qed.

Lemma emits_shutil_rmtree P E p : emits P E (shutil_rmtree p).
Proof. unfold shutil_rmtree. emits_split. Qed.

Lemma emits_os_makedirs P E p : emits P E (os_makedirs p).
Proof. unfold os_makedirs. emits_split. Qed.

Lemma emits_os_listdir P E p : emits P E (os_listdir p).
Proof. unfold os_listdir. emits_split. Qed.

Lemma emits_index0 P E names : emits P E (index0 names).
Proof. unfold index0. emits_split. Qed.

Lemma emits_shutil_copytree P E src dst : emits P E (shutil_copytree src dst).
Proof. unfold shutil_copytree. emits_split. Qed.

#[local] Hint Resolve emits_os_path_exists emits_read_file emits_write_file
  emits_os_remove emits_shutil_rmtree emits_os_makedirs emits_os_listdir
  emits_index0 emits_shutil_copytree : emits.

Lemma emits_subprocess_run (P : event → Prop) E argv cwd env :
  P (Run argv cwd env) → emits P E (subprocess_run argv cwd env).
Proof. intros HP. unfold subprocess_run. emits_split. Qed.

Lemma emits_tar_extractall (P : event → Prop) E members dest :
  emits P E (tar_extractall members dest).
Proof.
  induction members as [|member rest IH]; simpl; [emits_split|].
  destruct (data_filter member dest); [emits_split|].
  unfold tar_extract_member. emits_split.
Qed.

Lemma emits_zip_extractall (P : event → Prop) E members dest :
  emits P E (zip_extractall members dest).
Proof.
  induction members as [|member rest IH]; simpl; [emits_split|].
  unfold zip_extract_member. emits_split.
Qed.

#[local] Hint Resolve emits_tar_extractall emits_zip_extractall : emits.

Lemma emits_verify_checksum (P : event → Prop) E p d n :
  (∀ m, P (Print m)) → emits P E (verify_checksum p d n).
Proof.
  intros HP. unfold verify_checksum, calculate_sha256. emits_split.
Qed.

Lemma emits_download_file E url dest d n :
  emits (download_event url dest) E (download_file url dest d n).
Proof.
  assert (emits (download_event url dest) E
            (verify_checksum dest (default "" d) (default "" n))) as Hv
    by by apply emits_verify_checksum.
  unfold download_file, download_file_fetch, urlretrieve. emits_split.
Qed.

Lemma emits_extract_tar_gz (P : event → Prop) E file_path dest_dir :
  (∀ m, P (Print m)) → emits P E (extract_tar_gz file_path dest_dir).
Proof. intros HP. unfold extract_tar_gz. emits_split. Qed.

Lemma emits_extract_zip (P : event → Prop) E file_path dest_dir :
  (∀ m, P (Print m)) → emits P E (extract_zip file_path dest_dir).
Proof. intros HP. unfold extract_zip. emits_split. Qed.

Lemma emits_add_execute_permissions E file_path :
  emits (chmod_event file_path) E (add_execute_permissions file_path).
Proof.
  unfold add_execute_permissions, subprocess_run_check.
  assert (emits (chmod_event file_path) E
            (subprocess_run ["chmod"; "+x"; path_str file_path] None None)) as Hrun
    by by apply emits_subprocess_run.
  emits_split.
Qed.

Lemma emits_build_native_binaries E ghidra_dir jdk_home :
  emits (build_event ghidra_dir jdk_home E) E (build_native_binaries ghidra_dir jdk_home).
Proof.
  unfold build_native_binaries. cbv zeta.
  assert (emits (build_event ghidra_dir jdk_home E) E
            (add_execute_permissions ((ghidra_dir ++ ["support"; "gradle"]) ++ ["gradlew"])))
    as Hchmod.
  { eapply emits_mono; [|apply emits_add_execute_permissions].
    intros [m|url dest|argv cwd env]; simpl; [done|done|].
    rewrite <-(assoc_L (++)). simpl. auto. }
  assert (emits (build_event ghidra_dir jdk_home E) E
            (subprocess_run ["./gradlew"; "buildNatives"]
               (Some (ghidra_dir ++ ["support"; "gradle"]))
               (Some (build_env (environ E) jdk_home)))) as Hrun.
  { apply emits_subprocess_run. simpl. auto. }
  emits_split.
Qed.

Lemma emits_exit P E {A} c : emits P E (exit (A:=A) c).
Proof. intros w. exists []. by rewrite app_nil_r. Qed.

#[local] Hint Resolve emits_exit : emits.

Lemma emits_install_first_entry P E extract_dir final_app_dir :
  emits P E (install_first_entry extract_dir final_app_dir).
Proof. unfold install_first_entry. emits_split. Qed.

Lemma main_event_download_java g E ev :
  download_event (java_url g) (temp_dir g ++ ["openjdk.tar.gz"]) ev → main_event g E ev.
Proof. destruct ev; simpl; tauto. Qed.

Lemma main_event_download_ghidra g E ev :
  download_event (ghidra_url g) (temp_dir g ++ ["ghidra.zip"]) ev → main_event g E ev.
Proof. destruct ev; simpl; tauto. Qed.

Lemma main_event_build g E ev :
  build_event (ghidra_final_app_dir g) (jdk_home g) E ev → main_event g E ev.
Proof. destruct ev; simpl; tauto. Qed.

Lemma main_event_chmod_launch g E ev :
  chmod_event (launch_script_path g) ev → main_event g E ev.
Proof. destruct ev; simpl; tauto. Qed.

Lemma main_event_chmod_run g E ev :
  chmod_event (ghidra_run_path g) ev → main_event g E ev.
Proof. destruct ev; simpl; tauto. Qed.

(** X1.  Whatever the environment does, [main] only prints, transfers the
    JDK URL to [openjdk.tar.gz] and the Ghidra URL to [ghidra.zip] in its
    working directory, and runs [osacompile], [chmod +x] on the Gradle
    wrapper and the two launchers, and [./gradlew buildNatives] in the
    Gradle directory of the bundle with the environment of [build_env]; and
    it never takes a line back from the log. *)
Theorem main_emits g E : emits (main_event g E) E (main g).
Proof.
  pose proof (emits_mono _ _ E _ (main_event_download_java g E)
                (emits_download_file E (java_url g) (temp_dir g ++ ["openjdk.tar.gz"])
                   (Some (java_expected_sha256 g)) (Some "OpenJDK"))) as Hjava.
  pose proof (emits_mono _ _ E _ (main_event_download_ghidra g E)
                (emits_download_file E (ghidra_url g) (temp_dir g ++ ["ghidra.zip"])
                   (Some (ghidra_expected_sha256 g)) (Some "Ghidra"))) as Hghidra.
  pose proof (emits_mono _ _ E _ (main_event_build g E)
                (emits_build_native_binaries E (ghidra_final_app_dir g) (jdk_home g)))
    as Hbuild.
  pose proof (emits_mono _ _ E _ (main_event_chmod_launch g E)
                (emits_add_execute_permissions E (launch_script_path g))) as Hlaunch.
  pose proof (emits_mono _ _ E _ (main_event_chmod_run g E)
                (emits_add_execute_permissions E (ghidra_run_path g))) as Hrun.
  assert (emits (main_event g E) E
            (extract_tar_gz (temp_dir g ++ ["openjdk.tar.gz"]) (jdk_dir g))) as Htar
    by by apply emits_extract_tar_gz.
  assert (emits (main_event g E) E
            (extract_zip (temp_dir g ++ ["ghidra.zip"]) (ghidra_dir g))) as Hzip
    by by apply emits_extract_zip.
  assert (emits (main_event g E) E
            (subprocess_run
               ["osacompile"; "-o"; path_str (app_dir g); path_str (applet_path g)]
               None None)) as Hosa.
  { apply emits_subprocess_run. simpl. auto. }
  pose proof (emits_install_first_entry (main_event g E) E) as Hinst.
  unfold main, installation_failed, main_try1, main_try2, step1_create_app,
    step2_openjdk, step3_ghidra, step4_build_natives, step5_permissions,
    clean_and_extract, subprocess_run_check.
  emits_split.
Qed.

(** ** More on downloads *)

(** Close a goal that says that lines of output are lines of output. *)
Ltac prints :=
  unfold verify_log; simpl; rewrite ?forallb_app; simpl;
  repeat (case_match; simpl); done.

Lemma transfers_app evs1 evs2 :
  transfers (evs1 ++ evs2) = (transfers evs1 + transfers evs2)%nat.
Proof. unfold transfers. by rewrite filter_app, length_app. Qed.

Lemma transfers_prints evs : forallb is_print evs = true → transfers evs = 0%nat.
Proof.
  unfold transfers. induction evs as [|[m|url dest|argv cwd env] evs IH]; simpl;
    [done| |done..].
  intros H. rewrite filter_cons_False by done. auto.
Qed.

Lemma verify_log_prints root p d n : forallb is_print (verify_log root p d n) = true.
Proof.
  unfold verify_log. simpl. destruct (file_at root p); [|done].
  by destruct (String.eqb _ _).
Qed.

Lemma verify_log_passed root p d n :
  digest_matches root p d = true → Print (ChecksumPassed n) ∈ verify_log root p d n.
Proof.
  unfold digest_matches, verify_log. destruct (file_at root p); [|done].
  intros ->. rewrite !elem_of_cons. auto.
Qed.

(** The log of a transfer: the announcement, the request, then lines of
    output only. *)
Lemma fetch_result_log url dest d n E w :
  ∃ evs, w_log (fetch_result url dest d n E w).2 =
           w_log w ++ Print (Downloading url dest) :: UrlRetrieve url dest :: evs ∧
         forallb is_print evs = true.
Proof.
  unfold fetch_result.
  destruct (urlopen E url) as [content|]; simpl.
  - destruct (write_result (w_root w) dest content) as [e|root']; simpl.
    + exists [Print (ErrorDownloading url e)]. by rewrite <-(assoc_L (++)).
    + destruct (truthy d && truthy n); simpl.
      * destruct (digest_matches root' dest (default "" d)); simpl.
        -- eexists. rewrite <-(assoc_L (++)). split; [done|]. prints.
        -- eexists. rewrite <-(assoc_L (++)). split; [done|]. prints.
      * exists []. done.
  - exists [Print (ErrorDownloading url (URLError url))].
    by rewrite <-(assoc_L (++)).
Qed.

(** X2.  One call of [download_file] starts at most one transfer, whatever
    its arguments and whatever is at the destination. *)
Theorem download_file_at_most_one_transfer url dest d n E w :
  ∃ evs, w_log (download_file url dest d n E w).2 = w_log w ++ evs ∧
         (transfers evs ≤ 1)%nat.
Proof.
  rewrite download_file_run. unfold download_result.
  assert (∀ w0 pre, w_log w0 = w_log w ++ pre → forallb is_print pre = true →
            ∃ evs, w_log (fetch_result url dest d n E w0).2 = w_log w ++ evs ∧
                   (transfers evs ≤ 1)%nat) as Hfetch.
  { intros w0 pre Hpre Hprints.
    destruct (fetch_result_log url dest d n E w0) as (evs & -> & Hevs).
    exists (pre ++ Print (Downloading url dest) :: UrlRetrieve url dest :: evs).
    rewrite Hpre, <-(assoc_L (++)). split; [done|].
    rewrite transfers_app, (transfers_prints pre) by done.
    change (Print (Downloading url dest) :: UrlRetrieve url dest :: evs)
      with ([Print (Downloading url dest); UrlRetrieve url dest] ++ evs).
    rewrite transfers_app, (transfers_prints evs) by done. by cbv. }
  destruct (exists_at (w_root w) dest).
  - destruct (truthy d && truthy n); cbv zeta.
    + destruct (digest_matches (w_root w) dest (default "" d)).
      * eexists. rewrite logged_logged. split; [done|].
        rewrite transfers_prints; [lia|]. prints.
      * destruct (remove_result (w_root w) dest) as [e|root'].
        -- eexists. rewrite logged_logged. split; [done|].
           rewrite transfers_prints; [lia|]. prints.
        -- eapply Hfetch; simpl.
           ++ by rewrite <-(assoc_L (++)).
           ++ prints.
    + by eapply (Hfetch _ [_]).
  - eapply (Hfetch _ []); [|done]. by rewrite app_nil_r.
Qed.

(** A call that returns normally with a digest and a name given has printed
    that the checksum passed. *)
Lemma download_file_ok_passed url dest d n E w w' :
  d ≠ "" → n ≠ "" →
  download_file url dest (Some d) (Some n) E w = (Ok tt, w') →
  (∃ content, file_at (w_root w') dest = Some content ∧
              Sha256.hexdigest content = d) ∧
  ∃ evs, w_log w' = w_log w ++ evs ∧ Print (ChecksumPassed n) ∈ evs.
Proof.
  intros Hd Hn. rewrite download_file_run. unfold download_result.
  assert (∀ w0 pre, w_log w0 = w_log w ++ pre →
            fetch_result url dest (Some d) (Some n) E w0 = (Ok tt, w') →
            (∃ content, file_at (w_root w') dest = Some content ∧
                        Sha256.hexdigest content = d) ∧
            ∃ evs, w_log w' = w_log w ++ evs ∧ Print (ChecksumPassed n) ∈ evs)
    as Hfetch.
  { intros w0 pre Hpre Hrun. split; [by eapply fetch_result_ok|].
    revert Hrun. unfold fetch_result. rewrite !truthy_Some by done. simpl.
    destruct (urlopen E url) as [content|]; [|done].
    destruct (write_result (w_root w0) dest content) as [e|root']; [done|].
    destruct (digest_matches root' dest d) eqn:Hm; [|done].
    intros [= <-]. simpl. rewrite Hpre, <-!(assoc_L (++)).
    eexists. split; [done|]. rewrite !elem_of_app. right. right.
    by apply verify_log_passed. }
  rewrite !truthy_Some by done. simpl.
  destruct (exists_at (w_root w) dest); [|apply (Hfetch w []); by rewrite app_nil_r].
  destruct (digest_matches (w_root w) dest d) eqn:Hm.
  - intros [= <-]. simpl. split; [by apply digest_matches_true|].
    rewrite <-!(assoc_L (++)). eexists. split; [done|].
    rewrite elem_of_app. right. by apply verify_log_passed.
  - destruct (remove_result (w_root w) dest) as [e|root']; [done|].
    eapply Hfetch. simpl. by rewrite <-!(assoc_L (++)).
Qed.

(** X3.  [download_file] with a digest and a name is idempotent: after a
    call that returned normally, a further call with the same arguments
    returns normally as well, starts no transfer even when the network is
    down or serves something else, and leaves the file system as it is. *)
Theorem download_file_idempotent url dest d n E w w' :
  d ≠ "" → n ≠ "" →
  download_file url dest (Some d) (Some n) E w = (Ok tt, w') →
  ∀ E', ∃ evs,
    download_file url dest (Some d) (Some n) E' w' = (Ok tt, logged w' evs) ∧
    forallb is_print evs = true.
Proof.
  intros Hd Hn Hrun E'.
  destruct (download_file_ok_passed _ _ _ _ _ _ _ Hd Hn Hrun)
    as [(content & Hfile & Hdig) _].
  by eapply download_file_cached.
Qed.

Lemma download_file_idempotent_witness :
  ∃ evs,
    download_file (java_url demo_globals) demo_tar_path
      (Some (java_expected_sha256 demo_globals)) (Some "OpenJDK") offline_env
      (download_file (java_url demo_globals) demo_tar_path
         (Some (java_expected_sha256 demo_globals)) (Some "OpenJDK")
         demo_env demo_world).2 =
    (Ok tt,
     logged (download_file (java_url demo_globals) demo_tar_path
               (Some (java_expected_sha256 demo_globals)) (Some "OpenJDK")
               demo_env demo_world).2 evs) ∧
    forallb is_print evs = true.
Proof.
  apply (download_file_idempotent (java_url demo_globals) demo_tar_path
           (java_expected_sha256 demo_globals) "OpenJDK" demo_env demo_world).
  - discriminate.
  - discriminate.
  - vm_compute. reflexivity.
Defined.

(** X4.  When nothing is at the destination and the transfer fails,
    [download_file] raises the network error after one attempt and leaves
    the file system as it was: no empty or partial file appears. *)
Theorem download_file_network_failure url dest d n E w :
  exists_at (w_root w) dest = false → urlopen E url = None →
  download_file url dest d n E w =
    (Raise (URLError url),
     logged w [Print (Downloading url dest); UrlRetrieve url dest;
               Print (ErrorDownloading url (URLError url))]).
Proof.
  intros Hex Hurl. rewrite download_file_run. unfold download_result, fetch_result.
  rewrite Hex, Hurl. by rewrite logged_logged.
Qed.

Lemma download_file_network_failure_witness :
  download_file (java_url demo_globals) demo_tar_path
    (Some (java_expected_sha256 demo_globals)) (Some "OpenJDK") offline_env demo_world =
  (Raise (URLError (java_url demo_globals)),
   logged demo_world
     [Print (Downloading (java_url demo_globals) demo_tar_path);
      UrlRetrieve (java_url demo_globals) demo_tar_path;
      Print (ErrorDownloading (java_url demo_globals) (URLError (java_url demo_globals)))]).
Proof.
  apply (download_file_network_failure (java_url demo_globals) demo_tar_path
           (Some (java_expected_sha256 demo_globals)) (Some "OpenJDK")
           offline_env demo_world).
  - vm_compute. reflexivity.
  - reflexivity.
Defined.



(** ** More on the orchestrator *)

Lemma bind_ok_inv {A B} (m : M A) (k : A → M B) E w b w' :
  bind m k E w = (Ok b, w') → ∃ a w1, m E w = (Ok a, w1) ∧ k a E w1 = (Ok b, w').
Proof.
  rewrite bind_run. destruct (m E w) as [[a|e|c] w1] eqn:Hrun; [eauto|done|done].
Qed.

(** What a computation that emits only [P] leaves in the log is what was
    there, followed by what it added. *)
Lemma emits_log (P : event → Prop) E {A} (m : M A) w r w' :
  emits P E m → m E w = (r, w') → ∃ evs, w_log w' = w_log w ++ evs.
Proof.
  intros Hm Hrun. destruct (Hm w) as (evs & Hlog & _).
  rewrite Hrun in Hlog. eauto.
Qed.

(** X6.  [main] does not report success without both verifications: when
    the two expected digests are not empty and [main] returns normally, the
    lines that the OpenJDK checksum and the Ghidra checksum passed are among
    the lines this run of [main] printed. *)
Theorem main_ok_checksums_passed g E w w' :
  java_expected_sha256 g ≠ "" → ghidra_expected_sha256 g ≠ "" →
  main g E w = (Ok tt, w') →
  ∃ evs, w_log w' = w_log w ++ evs ∧
         Print (ChecksumPassed "OpenJDK") ∈ evs ∧
         Print (ChecksumPassed "Ghidra") ∈ evs.
Proof.
  intros Hj Hg. rewrite main_run.
  destruct (main_try1 g E w) as [[[]|e|c] w1] eqn:H1; [|done..].
  destruct (main_try2 g E w1) as [[[]|e|c] w2] eqn:H2; [|done..].
  intros [= <-].
  (* the first block *)
  unfold main_try1 in H1.
  apply bind_ok_inv in H1 as ([] & w0 & Hstep1 & Hstep2).
  unfold step2_openjdk in Hstep2.
  apply bind_ok_inv in Hstep2 as ([] & wa & Hdl1 & Hrest1).
  apply download_file_ok_passed in Hdl1 as [_ (evs_j & Hlog_j & Hin_j)];
    [|done|done].
  assert (∃ evs, w_log w0 = w_log w ++ evs) as [evs0 Hlog0].
  { eapply (emits_log (fun _ => True)); [|exact Hstep1].
    unfold step1_create_app, subprocess_run_check.
    pose proof (emits_subprocess_run (fun _ => True) E) as Hrun.
    emits_split. }
  assert (∃ evs, w_log w1 = w_log wa ++ evs) as [evs1 Hlog1].
  { eapply (emits_log (fun _ => True)); [|exact Hrest1].
    unfold clean_and_extract.
    pose proof (emits_extract_tar_gz (fun _ => True) E) as Htar.
    pose proof (emits_install_first_entry (fun _ => True) E) as Hinst.
    emits_split. }
  (* the second block *)
  unfold main_try2 in H2.
  apply bind_ok_inv in H2 as ([] & wb & Hstep3 & Hrest2).
  unfold step3_ghidra in Hstep3.
  apply bind_ok_inv in Hstep3 as ([] & wc & Hdl2 & Hrest3).
  apply download_file_ok_passed in Hdl2 as [_ (evs_g & Hlog_g & Hin_g)];
    [|done|done].
  assert (∃ evs, w_log wb = w_log wc ++ evs) as [evs2 Hlog2].
  { eapply (emits_log (fun _ => True)); [|exact Hrest3].
    unfold clean_and_extract.
    pose proof (emits_extract_zip (fun _ => True) E) as Hzip.
    pose proof (emits_install_first_entry (fun _ => True) E) as Hinst.
    emits_split. }
  assert (∃ evs, w_log w2 = w_log wb ++ evs) as [evs3 Hlog3].
  { eapply (emits_log (main_event g E)); [|exact Hrest2].
    unfold step4_build_natives, step5_permissions.
    pose proof (emits_mono _ _ E _ (main_event_build g E)
                  (emits_build_native_binaries E (ghidra_final_app_dir g) (jdk_home g)))
      as Hbuild.
    pose proof (emits_mono _ _ E _ (main_event_chmod_launch g E)
                  (emits_add_execute_permissions E (launch_script_path g))) as Hlaunch.
    pose proof (emits_mono _ _ E _ (main_event_chmod_run g E)
                  (emits_add_execute_permissions E (ghidra_run_path g))) as Hrun.
    emits_split. }
  exists (evs0 ++ evs_j ++ evs1 ++ evs_g ++ evs2 ++ evs3).
  split.
  - rewrite Hlog3, Hlog2, Hlog_g, Hlog1, Hlog_j, Hlog0.
    by rewrite <-!(assoc_L (++)).
  - rewrite !elem_of_app. auto 10.
Qed.

Lemma main_ok_checksums_passed_witness :
  ∃ evs,
    w_log (main demo_globals demo_env demo_world).2 = w_log demo_world ++ evs ∧
    Print (ChecksumPassed "OpenJDK") ∈ evs ∧
    Print (ChecksumPassed "Ghidra") ∈ evs.
Proof.
  apply (main_ok_checksums_passed demo_globals demo_env demo_world).
  - discriminate.
  - discriminate.
  - vm_compute. reflexivity.
Defined.

(** X7.  When [osacompile] ends with a status other than zero or cannot be
    started, [main] exits at once: the log grows by the call of [osacompile]
    and the failure line only, so nothing is downloaded, unpacked, built or
    made executable. *)
Theorem main_skeleton_failure g E w :
  let argv := ["osacompile"; "-o"; path_str (app_dir g); path_str (applet_path g)] in
  (∀ rc out err root',
     spawn E argv None None (w_root w) = Completed rc out err root' → rc ≠ 0 →
     main g E w =
       (Exit None,
        mkWorld root'
          (w_log w ++ [Run argv None None;
                       Print (InstallationFailed (CalledProcessError argv rc))]))) ∧
  (∀ e,
     spawn E argv None None (w_root w) = LaunchError e →
     main g E w =
       (Exit None, logged w [Run argv None None; Print (InstallationFailed e)])).
Proof.
  intros argv. split.
  - intros rc out err root' Hspawn Hrc.
    rewrite main_run. unfold main_try1, step1_create_app, subprocess_run_check.
    rewrite !bind_run, subprocess_run_run. unfold launch. simpl local_executable.
    fold argv. rewrite Hspawn. steps. cbn [fst snd].
    apply Z.eqb_neq in Hrc. rewrite Hrc. steps.
    unfold logged. simpl. by rewrite <-(assoc_L (++)).
  - intros e Hspawn.
    rewrite main_run. unfold main_try1, step1_create_app, subprocess_run_check.
    rewrite !bind_run, subprocess_run_run. unfold launch. simpl local_executable.
    fold argv. rewrite Hspawn. cbv beta iota.
    by rewrite logged_logged.
Qed.

(** X8.  When [chmod +x] on the launch script ends with a status other than
    zero, the permission phase raises at once: [ghidraRun] is not touched
    and the confirmation is not printed. *)
Theorem step5_permissions_first_failure g E w rc out err root' :
  let argv := ["chmod"; "+x"; path_str (launch_script_path g)] in
  spawn E argv None None (w_root w) = Completed rc out err root' → rc ≠ 0 →
  step5_permissions g E w =
    (Raise (CalledProcessError argv rc),
     mkWorld root'
       (w_log w ++
        [Run argv None None;
         Print (ErrorAddingExecutePermissions (launch_script_path g)
                  (CalledProcessError argv rc))])).
Proof.
  intros argv Hspawn Hrc. unfold step5_permissions.
  rewrite bind_run, add_execute_permissions_run.
  unfold add_execute_permissions_result, launch. simpl local_executable.
  fold argv. rewrite Hspawn. apply Z.eqb_neq in Hrc. rewrite Hrc.
  simpl. by rewrite <-(assoc_L (++)).
Qed.

Lemma main_skeleton_failure_witness :
  main demo_globals failing_tools_env demo_world =
    (Exit None,
     mkWorld demo_root
       [Run ["osacompile"; "-o"; path_str (app_dir demo_globals);
             path_str (applet_path demo_globals)] None None;
        Print (InstallationFailed
                 (CalledProcessError
                    ["osacompile"; "-o"; path_str (app_dir demo_globals);
                     path_str (applet_path demo_globals)] 1))]).
Proof.
  apply (proj1 (main_skeleton_failure demo_globals failing_tools_env demo_world)
           1 "" "failed" demo_root).
  - reflexivity.
  - discriminate.
Defined.

Lemma step5_permissions_first_failure_witness :
  step5_permissions demo_globals failing_tools_env demo_world =
    (Raise (CalledProcessError
              ["chmod"; "+x"; path_str (launch_script_path demo_globals)] 1),
     mkWorld demo_root
       [Run ["chmod"; "+x"; path_str (launch_script_path demo_globals)] None None;
        Print (ErrorAddingExecutePermissions (launch_script_path demo_globals)
                 (CalledProcessError
                    ["chmod"; "+x"; path_str (launch_script_path demo_globals)] 1))]).
Proof.
  apply (step5_permissions_first_failure demo_globals failing_tools_env demo_world
           1 "" "failed" demo_root).
  - reflexivity.
  - discriminate.
Defined.

(** ** More on the helpers *)

(** X9.  [add_execute_permissions] runs [chmod +x] on the file.  Status
    zero: the line that permissions were added is printed and the call
    returns.  Another status: the error line is printed and
    [CalledProcessError] is raised.  A launch that fails with another
    exception, such as a missing [chmod]: the exception is raised as it is
    and no error line is printed, because the handler only catches
    [CalledProcessError]. *)
Theorem add_execute_permissions_outcomes file_path E w :
  let argv := ["chmod"; "+x"; path_str file_path] in
  (∀ out err root',
     spawn E argv None None (w_root w) = Completed 0 out err root' →
     add_execute_permissions file_path E w =
       (Ok tt,
        mkWorld root'
          (w_log w ++ [Run argv None None;
                       Print (AddedExecutePermissions file_path)]))) ∧
  (∀ rc out err root',
     spawn E argv None None (w_root w) = Completed rc out err root' → rc ≠ 0 →
     add_execute_permissions file_path E w =
       (Raise (CalledProcessError argv rc),
        mkWorld root'
          (w_log w ++ [Run argv None None;
                       Print (ErrorAddingExecutePermissions file_path
                                (CalledProcessError argv rc))]))) ∧
  (∀ e,
     spawn E argv None None (w_root w) = LaunchError e →
     is_CalledProcessError e = false →
     add_execute_permissions file_path E w = (Raise e, logged w [Run argv None None])).
Proof.
  intros argv. rewrite add_execute_permissions_run.
  unfold add_execute_permissions_result, launch. simpl local_executable.
  fold argv. repeat split.
  - intros out err root' ->. simpl. by rewrite <-(assoc_L (++)).
  - intros rc out err root' -> Hrc. apply Z.eqb_neq in Hrc. rewrite Hrc.
    simpl. by rewrite <-(assoc_L (++)).
  - by intros e -> ->.
Qed.

Lemma add_execute_permissions_outcomes_witness :
  add_execute_permissions (applet_path demo_globals) demo_env demo_world =
    (Ok tt,
     mkWorld demo_root
       [Run ["chmod"; "+x"; path_str (applet_path demo_globals)] None None;
        Print (AddedExecutePermissions (applet_path demo_globals))]) ∧
  add_execute_permissions (applet_path demo_globals) failing_tools_env demo_world =
    (Raise (CalledProcessError ["chmod"; "+x"; path_str (applet_path demo_globals)] 1),
     mkWorld demo_root
       [Run ["chmod"; "+x"; path_str (applet_path demo_globals)] None None;
        Print (ErrorAddingExecutePermissions (applet_path demo_globals)
                 (CalledProcessError
                    ["chmod"; "+x"; path_str (applet_path demo_globals)] 1))]) ∧
  add_execute_permissions (applet_path demo_globals) no_chmod_env demo_world =
    (Raise (FileNotFoundError ["chmod"]),
     logged demo_world
       [Run ["chmod"; "+x"; path_str (applet_path demo_globals)] None None]).
Proof.
  split; [|split].
  - apply (proj1 (add_execute_permissions_outcomes (applet_path demo_globals)
                    demo_env demo_world) "" "" demo_root).
    reflexivity.
  - apply (proj1 (proj2 (add_execute_permissions_outcomes (applet_path demo_globals)
                           failing_tools_env demo_world)) 1 "" "failed" demo_root).
    + reflexivity.
    + discriminate.
  - apply (proj2 (proj2 (add_execute_permissions_outcomes (applet_path demo_globals)
                           no_chmod_env demo_world)) (FileNotFoundError ["chmod"])).
    + reflexivity.
    + reflexivity.
Defined.

(** X10.  The environment [build_native_binaries] gives to Gradle:
    [JAVA_HOME] is the JDK home, [PATH] is the JDK's [bin] directory, a
    colon, and the ambient [PATH] (nothing after the colon when there was
    none), and every other variable is as in the ambient environment. *)
Theorem build_env_variables environ jdk_home :
  assoc "JAVA_HOME" (build_env environ jdk_home) = Some (path_str jdk_home) ∧
  assoc "PATH" (build_env environ jdk_home) =
    Some (String.append (path_str (jdk_home ++ ["bin"]))
            (String.append ":" (default "" (assoc "PATH" environ)))) ∧
  (∀ k, k ≠ "JAVA_HOME" → k ≠ "PATH" →
        assoc k (build_env environ jdk_home) = assoc k environ).
Proof.
  unfold build_env. cbv zeta. repeat split.
  - by rewrite assoc_set_ne, assoc_set_eq.
  - by rewrite assoc_set_eq, assoc_set_ne.
  - intros k Hj Hp. by rewrite !assoc_set_ne.
Qed.



(** ** More on extraction *)

Lemma os_makedirs_same_outside dest p E w :
  is_dir (w_root w) dest = true →
  dest `prefix_of` p ∨ p `prefix_of` dest →
  let w1 := (os_makedirs p E w).2 in
  same_outside dest (w_root w) (w_root w1) ∧ is_dir (w_root w1) dest = true.
Proof.
  intros Hdir Hp. rewrite os_makedirs_run.
  destruct (mkdirs p (w_root w)) as [root'|] eqn:Hm; simpl.
  - by eapply mkdirs_same_outside.
  - split; [apply same_outside_refl|done].
Qed.

Lemma makedirs_write_same_outside dest t c E w :
  is_dir (w_root w) dest = true → dest `prefix_of` t →
  let w' := (bind (os_makedirs (dirname t)) (fun _ => write_file t c) E w).2 in
  same_outside dest (w_root w) (w_root w') ∧ is_dir (w_root w') dest = true.
Proof.
  intros Hdir Hdt. rewrite bind_run.
  pose proof (os_makedirs_same_outside dest (dirname t) E w Hdir
                (dirname_comparable _ _ Hdt)) as Hmk.
  destruct (os_makedirs (dirname t) E w) as [[[]|e|c'] w1]; [|done..].
  simpl in Hmk. destruct Hmk as [Hs1 Hd1].
  rewrite write_file_run.
  destruct (write_result (w_root w1) t c) as [e|root'] eqn:Hw; simpl; [done|].
  destruct (write_same_outside dest t _ _ _ Hd1 Hdt Hw) as [Hs2 Hd2].
  split; [by eapply same_outside_trans|done].
Qed.

Lemma zip_target_prefix dest filename : dest `prefix_of` zip_target dest filename.
Proof. unfold zip_target. by apply prefix_app_r. Qed.

Lemma zip_extractall_same_outside members dest E w :
  is_dir (w_root w) dest = true →
  same_outside dest (w_root w) (w_root (zip_extractall members dest E w).2).
Proof.
  revert w. induction members as [|member rest IH]; intros w Hdir; simpl.
  { apply same_outside_refl. }
  rewrite bind_run.
  assert (let w1 := (zip_extract_member member dest E w).2 in
          same_outside dest (w_root w) (w_root w1) ∧ is_dir (w_root w1) dest = true)
    as Hstep.
  { unfold zip_extract_member. cbv zeta.
    destruct (ends_with_slash (zip_filename member)).
    - apply os_makedirs_same_outside; [done|]. left. apply zip_target_prefix.
    - apply makedirs_write_same_outside; [done|]. apply zip_target_prefix. }
  destruct (zip_extract_member member dest E w) as [[[]|e|c] w1]; simpl in *;
    [|by destruct Hstep..].
  destruct Hstep as [Hs Hd]. eapply same_outside_trans; [done|]. by apply IH.
Qed.

Lemma extract_zip_run file_path dest_dir E w :
  extract_zip file_path dest_dir E w =
  let w0 := logged w [Print (Extracting file_path dest_dir)] in
  let fail e := (Raise e, logged w0 [Print (ErrorExtracting file_path e)]) in
  match file_at (w_root w) file_path with
  | Some content =>
      match unzip E content with
      | Some members =>
          match zip_extractall members dest_dir E w0 with
          | (Raise e, w') => (Raise e, logged w' [Print (ErrorExtracting file_path e)])
          | r => r
          end
      | None => fail BadZipFile
      end
  | None => fail (read_error (w_root w) file_path)
  end.
Proof.
  unfold extract_zip, read_file, file_at, read_error. steps.
  unfold get_root at 1. cbv beta iota.
  rewrite logged_root.
  destruct (lookup_node file_path (w_root w)) as [[content|es]|]; steps; try done.
  destruct (unzip E content) as [members|]; steps; [|done].
  by destruct (zip_extractall members dest_dir E _) as [[[]|e|c] w1]; steps.
Qed.



(** The member that tries to climb out ends up below the destination. *)
Example extract_zip_dots :
  let r := extract_zip ["work"; "dots.zip"] ["work"; "out"] zip_env zip_world in
  r.1 = Ok tt ∧
  file_at (w_root r.2) ["work"; "out"; "payload"; "bin"; "tool"] = Some (bytes_of "tool") ∧
  file_at (w_root r.2) ["work"; "out"; "etc"; "evil"] = Some (bytes_of "evil") ∧
  exists_at (w_root r.2) ["etc"] = false.
Proof. vm_compute. done. Qed.



(** ** The shape of a digest *)

Lemma hex_digit_lower x : 0 ≤ x < 16 → is_lower_hex (Sha256.hex_digit x) = true.
Proof.
  intros Hx.
  assert (x = 0 ∨ x = 1 ∨ x = 2 ∨ x = 3 ∨ x = 4 ∨ x = 5 ∨ x = 6 ∨ x = 7 ∨
          x = 8 ∨ x = 9 ∨ x = 10 ∨ x = 11 ∨ x = 12 ∨ x = 13 ∨ x = 14 ∨ x = 15)
    as Hcases by lia.
  repeat (destruct Hcases as [->|Hcases]; [reflexivity|]). by subst.
Qed.

Lemma hex_length bs : String.length (Sha256.hex bs) = (2 * length bs)%nat.
Proof. induction bs as [|b bs IH]; simpl; [done|]. rewrite IH. lia. Qed.

Lemma hex_lower bs :
  Forall (fun b => 0 ≤ b < 256) bs → all_lower_hex (Sha256.hex bs) = true.
Proof.
  induction 1 as [|b bs Hb _ IH]; simpl; [done|].
  rewrite IH, !hex_digit_lower; [done| |].
  - change 15 with (Z.ones 4). rewrite Z.land_ones by lia.
    apply Z.mod_pos_bound. lia.
  - rewrite Z.shiftr_div_pow2 by lia. change (2 ^ 4) with 16.
    split; [apply Z.div_pos; lia|]. apply Z.div_lt_upper_bound; lia.
Qed.

Lemma be_bytes_bounded n x : Forall (fun b => 0 ≤ b < 256) (Sha256.be_bytes n x).
Proof.
  induction n as [|n IH]; simpl; constructor; [|done].
  change 255 with (Z.ones 8). rewrite Z.land_ones by lia.
  apply Z.mod_pos_bound. lia.
Qed.

Lemma be_bytes_length n x : length (Sha256.be_bytes n x) = n.
Proof. induction n as [|n IH]; simpl; [done|]. by rewrite IH. Qed.

Lemma blocks_length fuel ws h :
  length h = 8%nat → length (Sha256.blocks fuel ws h) = 8%nat.
Proof.
  revert ws h. induction fuel as [|fuel IH]; intros ws h Hh; simpl; [done|].
  destruct ws as [|x ws]; [done|]. apply IH.
  unfold Sha256.compress. rewrite length_zip_with, Hh. done.
Qed.

Lemma digest_bytes msg :
  length (Sha256.digest msg) = 32%nat ∧
  Forall (fun b => 0 ≤ b < 256) (Sha256.digest msg).
Proof.
  unfold Sha256.digest. cbv zeta.
  match goal with
  | |- context [Sha256.blocks ?f ?ws Sha256.H0] =>
      pose proof (blocks_length f ws Sha256.H0 eq_refl) as Hlen;
      generalize dependent (Sha256.blocks f ws Sha256.H0)
  end.
  intros l Hlen.
  assert (∀ l : list Z,
            length (mjoin (Sha256.be_bytes 4 <$> l)) = (4 * length l)%nat ∧
            Forall (fun b => 0 ≤ b < 256) (mjoin (Sha256.be_bytes 4 <$> l))) as Hjoin.
  { clear. induction l as [|x l [IHlen IHall]]; [done|].
    change (mjoin (Sha256.be_bytes 4 <$> x :: l))
      with (Sha256.be_bytes 4 x ++ mjoin (Sha256.be_bytes 4 <$> l)).
    split.
    - rewrite length_app, be_bytes_length, IHlen. simpl. lia.
    - apply Forall_app. split; [apply be_bytes_bounded|done]. }
  destruct (Hjoin l) as [Hl Hall]. split; [|done]. rewrite Hl, Hlen. done.
Qed.

(** Every digest that [hexdigest] prints is 64 lower-case hex digits. *)
Lemma hexdigest_well_formed msg : well_formed_digest (Sha256.hexdigest msg) = true.
Proof.
  destruct (digest_bytes msg) as [Hlen Hall].
  unfold well_formed_digest, Sha256.hexdigest.
  rewrite hex_length, Hlen, hex_lower by done. done.
Qed.

(** X14.  An expected digest that is not 64 lower-case hex digits, for
    instance one written in upper case or cut short, never verifies:
    [verify_checksum] returns false for it on every file. *)
Theorem verify_checksum_malformed_digest file_path expected_sha256 file_name E w :
  well_formed_digest expected_sha256 = false →
  (verify_checksum file_path expected_sha256 file_name E w).1 = Ok false.
Proof.
  intros Hbad. rewrite verify_checksum_run. simpl. f_equal.
  unfold digest_matches. destruct (file_at (w_root w) file_path) as [content|]; [|done].
  apply String.eqb_neq. intros <-. by rewrite hexdigest_well_formed in Hbad.
Qed.

Lemma verify_checksum_malformed_digest_witness :
  (verify_checksum (applet_path demo_globals)
     "378202AB995D07ABC66DFF23466FE4770CE43DD77B5C674124967EF767DB5CC3" "applet"
     demo_env demo_world).1 = Ok false ∧
  (verify_checksum (applet_path demo_globals) "378202ab" "applet"
     demo_env demo_world).1 = Ok false.
Proof.
  split.
  - apply verify_checksum_malformed_digest. reflexivity.
  - apply verify_checksum_malformed_digest. reflexivity.
Defined.

(** ** Cleaning before extraction and before installation *)

Lemma mkdirs_empty p :
  ∃ n', mkdirs p (Dir []) = Some n' ∧ lookup_node p n' = Some (Dir []).
Proof.
  induction p as [|c p (m' & Hm & Hl)]; simpl; [eauto|].
  rewrite Hm. simpl. eexists. split; [done|]. simpl.
  by rewrite String.eqb_refl.
Qed.

(** A directory that [mkdirs] had to create is empty. *)
Lemma mkdirs_fresh p n n' :
  exists_at n p = false → mkdirs p n = Some n' → lookup_node p n' = Some (Dir []).
Proof.
  revert n n'. induction p as [|c p IH]; intros n n' Hex Hmk.
  { by destruct n. }
  destruct n as [|es]; [done|]. unfold exists_at in *. simpl in *.
  destruct (assoc c es) as [m|] eqn:Hc.
  - destruct (mkdirs p m) as [m'|] eqn:Hm; simplify_eq/=.
    rewrite assoc_set_eq. eapply IH; [|done].
    by destruct (lookup_node p m).
  - destruct (mkdirs_empty p) as (m' & Hm & Hl). rewrite Hm in Hmk.
    simplify_eq/=. by rewrite assoc_set_eq.
Qed.

Lemma mkdirs_cons c p es :
  mkdirs (c :: p) (Dir es) =
  mkdirs p (default (Dir []) (assoc c es)) ≫= fun m' => Some (Dir (assoc_set c m' es)).
Proof. simpl. by destruct (assoc c es). Qed.

(** Where something was removed, a directory can be created again. *)
Lemma mkdirs_after_del p n n1 x :
  lookup_node p n = Some x → del_node p n = Some n1 → is_Some (mkdirs p n1).
Proof.
  revert n n1. induction p as [|c p IH]; intros n n1 Hl Hdel; [done|].
  destruct n as [|es]; [done|]. simpl in Hl, Hdel.
  destruct (assoc c es) as [m|] eqn:Hc; [|done].
  destruct p as [|c' p].
  - simplify_eq. rewrite mkdirs_cons, assoc_del_eq. done.
  - destruct (del_node (c' :: p) m) as [m1|] eqn:Hd; simpl in Hdel; simplify_eq.
    rewrite mkdirs_cons, assoc_set_eq.
    destruct (IH m m1 Hl Hd) as [m2 Hm2].
    simpl default. by rewrite Hm2.
Qed.

(** X15.  [main] empties the extraction directory before it unpacks: when
    the directory exists, the extractor is started on a file system in which
    that directory is empty and everything outside it is as before, so
    nothing of an earlier extraction is mixed with the new one.  When the
    directory does not exist, the extractor is started on the directory just
    created. *)
Theorem clean_and_extract_starts_empty extract archive_path extract_dir E w :
  (is_dir (w_root w) extract_dir = true → extract_dir ≠ [] →
   ∃ root1,
     names_at root1 extract_dir = Some [] ∧
     same_outside extract_dir (w_root w) root1 ∧
     clean_and_extract extract archive_path extract_dir E w =
       extract archive_path extract_dir E (mkWorld root1 (w_log w))) ∧
  (exists_at (w_root w) extract_dir = false →
   ∀ root1, mkdirs extract_dir (w_root w) = Some root1 →
     names_at root1 extract_dir = Some [] ∧
     clean_and_extract extract archive_path extract_dir E w =
       extract archive_path extract_dir E (mkWorld root1 (w_log w))).
Proof.
  unfold clean_and_extract. rewrite bind_run, os_path_exists_run. cbv beta iota.
  split.
  - intros Hdir Hne. unfold is_dir in Hdir. unfold exists_at.
    destruct (lookup_node extract_dir (w_root w)) as [[?|es]|] eqn:Hl; try done.
    unfold when, shutil_rmtree. steps. unfold get_root at 1. cbv beta iota.
    rewrite Hl.
    destruct (del_node_is_Some _ _ _ Hne Hl) as [n1 Hdel].
    rewrite Hdel. unfold commit, set_root. cbv beta iota.
    destruct (mkdirs_after_del _ _ _ _ Hl Hdel) as [root1 Hmk].
    rewrite bind_run, os_makedirs_run. simpl w_root. rewrite Hmk. cbv beta iota.
    exists root1. split; [|split; [|done]].
    + unfold names_at. erewrite mkdirs_fresh; [done| |done].
      unfold exists_at. by rewrite (del_node_lookup _ _ _ Hdel).
    + intros q Hq. rewrite (mkdirs_stat _ _ _ q Hmk).
      destruct (decide (q `prefix_of` extract_dir)) as [[r Hr]|].
      * symmetry. eapply (os_stat_ancestor q r); [by rewrite <-Hr|].
        intros ->. apply Hq. by rewrite Hr, app_nil_r.
      * by eapply del_node_stat.
  - intros Hex root1 Hmk. rewrite Hex. unfold when. steps.
    rewrite os_makedirs_run, Hmk. split; [|done].
    unfold names_at. by erewrite mkdirs_fresh.
Qed.

Lemma clean_and_extract_starts_empty_witness :
  ∃ root1,
    names_at root1 ["work"; "ex"] = Some [] ∧
    same_outside ["work"; "ex"] (w_root stale_world) root1 ∧
    clean_and_extract extract_tar_gz ["work"; "mixed.tar.gz"] ["work"; "ex"]
      archive_env stale_world =
    extract_tar_gz ["work"; "mixed.tar.gz"] ["work"; "ex"] archive_env
      (mkWorld root1 (w_log stale_world)).
Proof.
  apply (proj1 (clean_and_extract_starts_empty extract_tar_gz
                  ["work"; "mixed.tar.gz"] ["work"; "ex"] archive_env stale_world)).
  - reflexivity.
  - discriminate.
Defined.

(** The stale file is gone after the extraction. *)
Example clean_and_extract_removes_stale :
  let r := clean_and_extract extract_tar_gz ["work"; "mixed.tar.gz"] ["work"; "ex"]
             archive_env stale_world in
  exists_at (w_root stale_world) ["work"; "ex"; "stale"] = true ∧
  exists_at (w_root r.2) ["work"; "ex"; "stale"] = false ∧
  names_at (w_root r.2) ["work"; "ex"] = Some ["payload"].
Proof. vm_compute. done. Qed.

(** X16.  When the first name in the listing of the extraction directory is
    a regular file, [install_first_entry] raises [NotADirectoryError] from
    the copy; the installation that was in the bundle has been removed
    before, so the bundle is left without that component. *)
Theorem install_first_entry_regular_file extract_dir final_app_dir first rest c E w :
  names_at (w_root w) extract_dir = Some (first :: rest) →
  file_at (w_root w) (extract_dir ++ [first]) = Some c →
  is_dir (w_root w) final_app_dir = true →
  ¬ final_app_dir `prefix_of` extract_dir ++ [first] →
  ¬ extract_dir ++ [first] `prefix_of` final_app_dir →
  ∃ w',
    install_first_entry extract_dir final_app_dir E w =
      (Raise (NotADirectoryError (extract_dir ++ [first])), w') ∧
    exists_at (w_root w') final_app_dir = false ∧
    w_log w' = w_log w.
Proof.
  intros (es & Hl & Hes)%names_at_lookup Hfile Hdir Hfs Hsf.
  unfold install_first_entry.
  rewrite bind_run, os_listdir_run, Hl, Hes. unfold index0. steps.
  unfold is_dir in Hdir. unfold exists_at at 1.
  destruct (lookup_node final_app_dir (w_root w)) as [[?|fes]|] eqn:Hfinal; try done.
  unfold when, shutil_rmtree. steps. unfold get_root at 1. cbv beta iota.
  rewrite Hfinal.
  assert (final_app_dir ≠ []) as Hne.
  { intros ->. apply Hfs, prefix_nil. }
  destruct (del_node_is_Some _ _ _ Hne Hfinal) as [root1 Hdel].
  rewrite Hdel. unfold commit, set_root. cbv beta iota.
  unfold shutil_copytree. steps. unfold get_root at 1. cbv beta iota.
  cbn [w_root].
  rewrite (del_node_lookup_ne _ _ _ _ Hdel Hfs Hsf).
  unfold file_at in Hfile.
  destruct (lookup_node (extract_dir ++ [first]) (w_root w)) as [[?|?]|]; try done.
  steps. eexists. split; [done|]. split; [|done].
  unfold exists_at. simpl. by rewrite (del_node_lookup _ _ _ Hdel).
Qed.

Lemma install_first_entry_regular_file_witness :
  ∃ w',
    install_first_entry ["work"; "ex"] ["work"; "bundle"] demo_env file_first_world =
      (Raise (NotADirectoryError ["work"; "ex"; "README"]), w') ∧
    exists_at (w_root w') ["work"; "bundle"] = false ∧
    w_log w' = w_log file_first_world.
Proof.
  apply (install_first_entry_regular_file ["work"; "ex"] ["work"; "bundle"]
           "README" ["jdk"] (bytes_of "readme") demo_env file_first_world).
  - reflexivity.
  - reflexivity.
  - reflexivity.
  - intros [k Hk]. discriminate Hk.
  - intros [k Hk]. discriminate Hk.
Defined.

(** ** Names the tar filter accepts *)

Lemma walk_prefix (base stack : path) c :
  c ≠ ".." → base `prefix_of` stack → base `prefix_of` walk stack c.
Proof.
  intros Hc Hbase. unfold walk.
  destruct (String.eqb_spec c ""); [done|].
  destruct (String.eqb_spec c "."); [done|].
  destruct (String.eqb_spec c ".."); [done|].
  by apply prefix_app_r.
Qed.

Lemma foldl_walk_prefix (base stack : path) comps :
  ".." ∉ comps → base `prefix_of` stack → base `prefix_of` foldl walk stack comps.
Proof.
  revert stack. induction comps as [|c comps IH]; intros stack Hcomps Hbase; [done|].
  simpl. rewrite not_elem_of_cons in Hcomps. destruct Hcomps as [Hc Hcomps].
  apply IH; [done|]. by apply walk_prefix.
Qed.


Ltac plain_name :=
  apply (bool_decide_unpack _); vm_compute; exact I.


(** ** What success implies *)

Lemma add_execute_permissions_ok_log file_path E w w' :
  add_execute_permissions file_path E w = (Ok tt, w') →
  w_log w' = w_log w ++ [Run ["chmod"; "+x"; path_str file_path] None None;
                         Print (AddedExecutePermissions file_path)].
Proof.
  rewrite add_execute_permissions_run. unfold add_execute_permissions_result.
  cbv zeta.
  match goal with
  | |- context [launch ?E ?a ?c ?v ?r] => destruct (launch E a c v r) as [rc ? ? ?|e]
  end.
  - destruct (rc =? 0); [|done]. intros [= <-]. simpl. by rewrite <-(assoc_L (++)).
  - by destruct (is_CalledProcessError e).
Qed.

Lemma emits_main_steps g E :
  emits (main_event g E) E (step2_openjdk g) ∧
  emits (main_event g E) E (step3_ghidra g) ∧
  emits (main_event g E) E (step4_build_natives g).
Proof.
  pose proof (emits_mono _ _ E _ (main_event_download_java g E)
                (emits_download_file E (java_url g) (temp_dir g ++ ["openjdk.tar.gz"])
                   (Some (java_expected_sha256 g)) (Some "OpenJDK"))) as Hjava.
  pose proof (emits_mono _ _ E _ (main_event_download_ghidra g E)
                (emits_download_file E (ghidra_url g) (temp_dir g ++ ["ghidra.zip"])
                   (Some (ghidra_expected_sha256 g)) (Some "Ghidra"))) as Hghidra.
  pose proof (emits_mono _ _ E _ (main_event_build g E)
                (emits_build_native_binaries E (ghidra_final_app_dir g) (jdk_home g)))
    as Hbuild.
  assert (emits (main_event g E) E
            (extract_tar_gz (temp_dir g ++ ["openjdk.tar.gz"]) (jdk_dir g))) as Htar
    by by apply emits_extract_tar_gz.
  assert (emits (main_event g E) E
            (extract_zip (temp_dir g ++ ["ghidra.zip"]) (ghidra_dir g))) as Hzip
    by by apply emits_extract_zip.
  pose proof (emits_install_first_entry (main_event g E) E) as Hinst.
  unfold step2_openjdk, step3_ghidra, step4_build_natives, clean_and_extract.
  split; [|split]; emits_split.
Qed.

(** X18.  When [main] returns normally, the log of the run starts with the
    call of [osacompile] and ends with [chmod +x] on the launch script,
    [chmod +x] on [ghidraRun], each followed by the line that permissions
    were added, and the confirmation. *)
Theorem main_ok_log g E w w' :
  main g E w = (Ok tt, w') →
  ∃ evs,
    w_log w' =
    w_log w ++
    Run ["osacompile"; "-o"; path_str (app_dir g); path_str (applet_path g)] None None ::
    evs ++
    [Run ["chmod"; "+x"; path_str (launch_script_path g)] None None;
     Print (AddedExecutePermissions (launch_script_path g));
     Run ["chmod"; "+x"; path_str (ghidra_run_path g)] None None;
     Print (AddedExecutePermissions (ghidra_run_path g));
     Print InstallationCompleted].
Proof.
  rewrite main_run.
  destruct (main_try1 g E w) as [[[]|e|c] w1] eqn:H1; [|done..].
  destruct (main_try2 g E w1) as [[[]|e|c] w2] eqn:H2; [|done..].
  intros [= <-].
  unfold main_try1 in H1.
  apply bind_ok_inv in H1 as ([] & w0 & Hstep1 & Hstep2).
  assert (∃ evs, w_log w0 =
            w_log w ++ Run ["osacompile"; "-o"; path_str (app_dir g);
                            path_str (applet_path g)] None None :: evs)
    as [evs0 Hlog0].
  { revert Hstep1. unfold step1_create_app, subprocess_run_check.
    rewrite !bind_run, subprocess_run_run.
    destruct (launch E _ None None (w_root w)) as [rc out err root'|e]; [|done].
    steps. cbn [fst]. destruct (rc =? 0); steps; [|done].
    intros [= <-]. simpl. rewrite <-(assoc_L (++)). eauto. }
  destruct (emits_main_steps g E) as (Hemit2 & Hemit3 & Hemit4).
  destruct (emits_log _ _ _ _ _ _ Hemit2 Hstep2) as [evs1 Hlog1].
  unfold main_try2 in H2.
  apply bind_ok_inv in H2 as ([] & wa & Hstep3 & H2).
  apply bind_ok_inv in H2 as ([] & wb & Hstep4 & Hstep5).
  destruct (emits_log _ _ _ _ _ _ Hemit3 Hstep3) as [evsa Hloga].
  destruct (emits_log _ _ _ _ _ _ Hemit4 Hstep4) as [evsb Hlogb].
  unfold step5_permissions in Hstep5.
  apply bind_ok_inv in Hstep5 as ([] & wc & Hc1 & Hstep5).
  apply bind_ok_inv in Hstep5 as ([] & wd & Hc2 & Hdone).
  apply add_execute_permissions_ok_log in Hc1, Hc2.
  rewrite print_run in Hdone. injection Hdone as <-.
  exists (evs0 ++ evs1 ++ evsa ++ evsb). simpl.
  rewrite Hc2, Hc1, Hlogb, Hloga, Hlog1, Hlog0.
  repeat (rewrite <-?(assoc_L (++)); simpl). reflexivity.
Qed.

Lemma main_ok_log_witness :
  ∃ evs,
    w_log (main demo_globals demo_env demo_world).2 =
    w_log demo_world ++
    Run ["osacompile"; "-o"; path_str (app_dir demo_globals);
         path_str (applet_path demo_globals)] None None ::
    evs ++
    [Run ["chmod"; "+x"; path_str (launch_script_path demo_globals)] None None;
     Print (AddedExecutePermissions (launch_script_path demo_globals));
     Run ["chmod"; "+x"; path_str (ghidra_run_path demo_globals)] None None;
     Print (AddedExecutePermissions (ghidra_run_path demo_globals));
     Print InstallationCompleted].
Proof.
  apply (main_ok_log demo_globals demo_env demo_world).
  vm_compute. reflexivity.
Defined.
